(** * A shallow embedding of the [core] service container (package [core],
      [events], [otkafka]) and the properties of its specification.

    Go values are embedded as follows.
    - An [error] is a message together with the error it wraps ([%w]).
    - A function that may panic returns an [outcome]; state changes made
      before the panic are kept, as they are after a [recover].
    - A [map] is a [gmap]; a nil map and an empty map read alike.
    - A [reflect.Type] is the record of what the code asks of it: kind, input
      and output types, variadic flag and method set; or the slice type of
      an element type. *)

From Stdlib Require Import String Ascii List Bool Arith Lia.
From stdpp Require Import base option list gmap strings.
Import ListNotations.

Local Open Scope string_scope.
Local Open Scope list_scope.

(** ** Go runtime values shared by the packages *)

Module Go.

(** [error]: [Error()] is the message, [Unwrap()] the wrapped error. *)
Inductive error : Type :=
| plainError (msg : string)
| wrapError (msg : string) (inner : error).

Definition Error (e : error) : string :=
  match e with plainError m => m | wrapError m _ => m end.

Definition Unwrap (e : error) : option error :=
  match e with plainError _ => None | wrapError _ i => Some i end.

(** [errors.New(text)] *)
Definition errorsNew (text : string) : error := plainError text.

(** [reflect.Kind], as far as the code tells kinds apart. *)
Inductive reflectKind : Type := Func | Interface | Struct | Ptr | Basic | Slice.

#[global] Instance reflectKind_eq_dec : EqDecision reflectKind.
Proof. solve_decision. Defined.

(** [reflect.Type]: name, kind, the input and output types of a function
    type, whether it is variadic, and the names of the methods in the
    method set; and the slice type [[]T], which is what the last input of a
    variadic function type is. *)
#[warnings="-register-all"] Inductive rtype : Type :=
| mkType (tname : string) (tkind : reflectKind) (tin tout : list rtype)
         (tvariadic : bool) (tmethods : list string)
| sliceOf (elem : rtype).

Fixpoint typeName (t : rtype) : string :=
  match t with
  | mkType n _ _ _ _ _ => n
  | sliceOf e => "[]" ++ typeName e
  end.
Definition Kind (t : rtype) : reflectKind :=
  match t with mkType _ k _ _ _ _ => k | sliceOf _ => Slice end.
Definition Ins (t : rtype) : list rtype :=
  match t with mkType _ _ i _ _ _ => i | sliceOf _ => [] end.
Definition Outs (t : rtype) : list rtype :=
  match t with mkType _ _ _ o _ _ => o | sliceOf _ => [] end.
Definition IsVariadic (t : rtype) : bool :=
  match t with mkType _ _ _ _ v _ => v | sliceOf _ => false end.
Definition Methods (t : rtype) : list string :=
  match t with mkType _ _ _ _ _ m => m | sliceOf _ => [] end.

(** [t.Elem()] of a slice type; it panics on the types that have no
    element, which is [None]. *)
Definition Elem (t : rtype) : option rtype :=
  match t with mkType _ _ _ _ _ _ => None | sliceOf e => Some e end.
Definition NumIn (t : rtype) : nat := length (Ins t).
Definition NumOut (t : rtype) : nat := length (Outs t).

(** [v.Implements(u)] for an interface type [u]: every method of [u] is in
    the method set of [v]. *)
Definition Implements (v u : rtype) : bool :=
  forallb (fun m => existsb (String.eqb m) (Methods v)) (Methods u).

(** Whether two types are identical. *)
Fixpoint rtype_eqb (a b : rtype) : bool :=
  let all2 :=
    fix all2 (l l' : list rtype) : bool :=
      match l, l' with
      | [], [] => true
      | x :: r, y :: r' => rtype_eqb x y && all2 r r'
      | _, _ => false
      end in
  match a, b with
  | mkType n k i o v m, mkType n' k' i' o' v' m' =>
      String.eqb n n' && bool_decide (k = k') && all2 i i' && all2 o o'
      && Bool.eqb v v' && bool_decide (m = m')
  | sliceOf e, sliceOf e' => rtype_eqb e e'
  | _, _ => false
  end.

(** [x.AssignableTo(t)]: the types are identical, or [t] is an interface
    type that [x] implements.  The further rule of Go, for two types with
    one underlying type, needs the underlying type of a named type, which
    [rtype] does not hold. *)
Definition AssignableTo (x t : rtype) : bool :=
  rtype_eqb x t || (bool_decide (Kind t = Interface) && Implements x t).

(** [reflect.FuncOf(in, out, variadic)] *)
Definition FuncOf (ins outs : list rtype) (variadic : bool) : rtype :=
  mkType "func" Func ins outs variadic [].

(** A non-nil Go value: its dynamic type and its [%v] rendering, which
    also tells values of one type apart. *)
Record value : Type := { vtype : rtype; vrepr : string }.

(** [interface{}]: nil or a value. *)
Definition iface : Type := option value.

(** [reflect.Value] of a call result: [Type()] is the declared result type,
    [Interface()] the value held. *)
Record reflectValue : Type := { rvType : rtype; rvInterface : iface }.

(** What [panic] was called with. *)
Inductive panicValue : Type :=
| PString (s : string)
| PError (e : error)
| PValue (v : value).

(** The result of a call that may panic. *)
Inductive outcome (A : Type) : Type :=
| Ret (a : A)
| Panic (p : panicValue).
Arguments Ret {A} a.
Arguments Panic {A} p.

(** The double quote character, for messages that quote a package name. *)
Definition dq : string := String (ascii_of_nat 34) EmptyString.

(** [strings.HasPrefix(s, p)] *)
Fixpoint HasPrefix (s p : string) : bool :=
  match p, s with
  | EmptyString, _ => true
  | String a p', String b s' => if Ascii.eqb a b then HasPrefix s' p' else false
  | String _ _, EmptyString => false
  end.

(** What follows the prefix [p] in [s], when [s] starts with [p]. *)
Fixpoint afterPrefix (s p : string) : option string :=
  match p, s with
  | EmptyString, _ => Some s
  | String a p', String b s' => if Ascii.eqb a b then afterPrefix s' p' else None
  | String _ _, EmptyString => None
  end.

(** [strings.Contains(s, substr)] *)
Fixpoint Contains (s sub : string) : bool :=
  HasPrefix s sub ||
  match s with
  | EmptyString => false
  | String _ s' => Contains s' sub
  end.

End Go.

(** ** Package [events]: the synchronous dispatcher *)

Module Events.
Import Go.

Section Dispatcher.
(** [W] is the state the listeners act upon; [Ev] the event payload. *)
Context {W Ev : Type}.

(** [contract.Listener]: [Listen()] names the topic, [Process] handles
    one event.  [lid] identifies the listener in traces. *)
Record Listener : Type := {
  lid : nat;
  Listen : string;
  Process : Ev -> W -> W * option error
}.

(** [SyncDispatcher.registry]; the lock guards it and has no sequential
    content. *)
Record SyncDispatcher : Type := {
  registry : gmap string (list Listener)
}.

Definition newDispatcher : SyncDispatcher := {| registry := ∅ |}.

(** The [for _, listener := range listeners] loop of [Dispatch].  The
    second component lists the listeners whose [Process] was called, in
    call order. *)
Fixpoint rangeListeners (listeners : list Listener) (event : Ev) (w : W)
  : W * list nat * option error :=
  match listeners with
  | [] => (w, [], None)
  | listener :: rest =>
      match Process listener event w with
      | (w', Some err) => (w', [lid listener], Some err)
      | (w', None) =>
          match rangeListeners rest event w' with
          | (w'', called, r) => (w'', lid listener :: called, r)
          end
      end
  end.

(** [func (d *SyncDispatcher) Dispatch(ctx, topic, event) error] *)
Definition Dispatch (d : SyncDispatcher) (topic : string) (event : Ev) (w : W)
  : W * list nat * option error :=
  match registry d !! topic with
  | None => (w, [], None)
  | Some listeners => rangeListeners listeners event w
  end.

(** [func (d *SyncDispatcher) Subscribe(listener contract.Listener)] *)
Definition Subscribe (d : SyncDispatcher) (listener : Listener) : SyncDispatcher :=
  {| registry :=
       <[Listen listener :=
           default [] (registry d !! Listen listener) ++ [listener]]>
         (registry d) |}.

(** The listeners the registry holds for a topic, none read as the empty list. *)
Definition listenersOf (d : SyncDispatcher) (topic : string) : list Listener :=
  default [] (registry d !! topic).

Definition subscribeAll (d : SyncDispatcher) (ls : list Listener) : SyncDispatcher :=
  fold_left Subscribe ls d.

(** The listeners of [ls] subscribed to [topic], in the order of [ls]. *)
Definition listening (topic : string) (ls : list Listener) : list Listener :=
  List.filter (fun l => String.eqb (Listen l) topic) ls.

(** Every listener of [ls] runs on [event] and returns nil, taking the
    state from [w] to [w']. *)
Inductive allSucceed (event : Ev) : list Listener -> W -> W -> Prop :=
| allSucceed_nil w : allSucceed event [] w w
| allSucceed_cons l ls w w' w'' :
    Process l event w = (w', None) ->
    allSucceed event ls w' w'' ->
    allSucceed event (l :: ls) w w''.

(** What the specification asks of a dispatch over the listeners [ls] of
    a topic: either all of them ran and succeeded, or the run stopped at
    the first one that erred. *)
Definition Delivered (ls : list Listener) (event : Ev) (w : W)
    (res : W * list nat * option error) : Prop :=
  (exists w', allSucceed event ls w w' /\ res = (w', map lid ls, None))
  \/
  (exists pre x post w1 w' err,
      ls = pre ++ x :: post /\
      allSucceed event pre w w1 /\
      Process x event w1 = (w', Some err) /\
      res = (w', map lid pre ++ [lid x], Some err)).

End Dispatcher.
Arguments Listener : clear implicits.
Arguments SyncDispatcher : clear implicits.

End Events.

(** ** Package [core]: the container [C] *)

Module Core.
Import Go.

(** [regexp.MustCompile(` missing dependencies for function "reflect"\.makeFuncStub \(.+?\):`)]:
    a literal, then [.+?] (one or more characters other than a newline, as
    few as possible), then the literal [):]. *)
Definition stubName : string := dq ++ "reflect" ++ dq ++ ".makeFuncStub".

Definition reLiteral : string :=
  " missing dependencies for function " ++ stubName ++ " (".

Definition isNewline (c : ascii) : bool := Ascii.eqb c (ascii_of_nat 10).

(** After the first character of [.+?]: the number of characters up to and
    including the first [):], none of the characters before it a newline. *)
Fixpoint lazyUntilClose (s : string) : option nat :=
  if HasPrefix s "):" then Some 2
  else match s with
       | EmptyString => None
       | String c s' => if isNewline c then None else S <$> lazyUntilClose s'
       end.

(** The length of the match of the pattern at the start of [s], if any. *)
Definition matchAt (s : string) : option nat :=
  match afterPrefix s reLiteral with
  | Some (String c s') =>
      if isNewline c then None
      else (fun n => String.length reLiteral + S n) <$> lazyUntilClose s'
  | _ => None
  end.

(** [re.ReplaceAllString(s, "")], scanning [s] from the left; [skip] counts
    the characters of the current match still to be dropped. *)
Fixpoint dropMatches (skip : nat) (s : string) : string :=
  match s with
  | EmptyString => EmptyString
  | String c s' =>
      match skip with
      | S k => dropMatches k s'
      | O =>
          match matchAt s with
          | Some (S n) => dropMatches n s'
          | _ => String c (dropMatches 0 s')
          end
      end
  end.

Definition ReplaceAllString_empty (s : string) : string := dropMatches 0 s.

(** [isCleanup], [isErr], [isModule] *)
Definition isCleanup (v : rtype) : bool :=
  if bool_decide (Kind v = Func) && Nat.eqb (NumIn v) 0 && Nat.eqb (NumOut v) 0
  then true else false.

Definition _errType : rtype := mkType "error" Interface [] [] false ["Error"].

Definition isErr (v : rtype) : bool := Implements v _errType.

(** [di.Module] is not embedded from source here; the test types [m1]
    and [m2] implement it with the single method [ModuleSentinel]. *)
Definition _moduleType : rtype :=
  mkType "di.Module" Interface [] [] false ["ModuleSentinel"].

Definition isModule (v : rtype) : bool := Implements v _moduleType.

Section Container.
(** [D] is the state of the resolver behind the [DiContainer] interface. *)
Context {D : Type}.

(** [C], as far as registration and resolution use it: the modules held by
    [c.Container] and the resolver [c.di]. *)
Record C : Type := {
  Container : list iface;
  di : D
}.

(** A computation on the container that may panic. *)
Definition M (A : Type) : Type := C -> C * outcome A.

Definition ret {A} (a : A) : M A := fun c => (c, Ret a).

Definition bind {A B} (m : M A) (k : A -> M B) : M B :=
  fun c => match m c with
           | (c', Ret a) => k a c'
           | (c', Panic p) => (c', Panic p)
           end.

Definition panic {A} (p : panicValue) : M A := fun c => (c, Panic p).

(** A value passed as [interface{}] where a function is expected: the value
    and what calling it does. *)
Record funcValue : Type := {
  fval : value;
  fbody : list iface -> M (list iface)
}.

Definition ftypeOf (f : funcValue) : rtype := vtype (fval f).

(** The [DiContainer] interface. *)
Class DiContainer : Type := {
  di_Provide : funcValue -> D -> D * option error;
  di_Invoke : funcValue -> C -> C * option error
}.

(** Modelled from the spec: [container.Container.AddModule], which is
    not embedded from source here; the specification has it append the
    value to an ordered collection in registration order. *)
Definition Container_AddModule (module : iface) (c : C) : C :=
  {| Container := Container c ++ [module]; di := di c |}.

(** [case error:] of the type switch in [AddModule]: a non-nil value whose
    dynamic type implements [error]. *)
Definition isErrorValue (m : iface) : option value :=
  match m with
  | Some v => if isErr (vtype v) then Some v else None
  | None => None
  end.

(** [func (c *C) AddModule(modules ...interface{})] *)
Fixpoint AddModule (modules : list iface) : M unit :=
  match modules with
  | [] => ret tt
  | m :: rest =>
      match isErrorValue m with
      | Some e => panic (PValue e)
      | None => fun c => AddModule rest (Container_AddModule m c)
      end
  end.

(** The first loop of [provide], over the output types: [(shouldMakeFunc,
    outTypes)]. *)
Fixpoint scanOuts (outs : list rtype) (shouldMakeFunc : bool) (outTypes : list rtype)
  : bool * list rtype :=
  match outs with
  | [] => (shouldMakeFunc, outTypes)
  | outT :: rest =>
      if isCleanup outT then scanOuts rest true outTypes
      else scanOuts rest (if isModule outT then true else shouldMakeFunc)
                    (outTypes ++ [outT])
  end.

(** The second loop of [provide], over the input types. *)
Fixpoint scanIns (ins : list rtype) (shouldMakeFunc : bool) (inTypes : list rtype)
  : bool * list rtype :=
  match ins with
  | [] => (shouldMakeFunc, inTypes)
  | inT :: rest =>
      scanIns rest (if isModule inT then true else shouldMakeFunc) (inTypes ++ [inT])
  end.

(** The [%v] rendering of the slice that [Call] makes of the variadic
    arguments. *)
Definition sliceRepr (xs : list reflectValue) : string :=
  "[" ++ String.concat " "
           (map (fun x => match rvInterface x with
                          | Some v => vrepr v
                          | None => "<nil>"
                          end) xs) ++ "]".

(** The constructor run on the arguments of the call: the results carry the
    declared result types, a function returning as many values as its type
    declares. *)
Definition callResults (constructor : funcValue) (args : list iface)
  : M (list reflectValue) :=
  bind (fbody constructor args)
       (fun outs => ret (zip_with Build_reflectValue (Outs (ftypeOf constructor)) outs)).

(** [reflect.ValueOf(constructor).Call(in)].  For a variadic function [Call]
    takes the arguments after the fixed ones one by one, requires each of
    them to be assignable to the element type, and puts them into a new
    slice, which is the last argument of the function.  The check of the
    fixed arguments against the types of the inputs is left out: the
    interceptor passes on the arguments of the stub, which carry these very
    types. *)
Definition Call (constructor : funcValue) (inVs : list reflectValue)
  : M (list reflectValue) :=
  let t := ftypeOf constructor in
  if IsVariadic t then
    let n := NumIn t - 1 in
    if Nat.ltb (length inVs) n then
      panic (PString "reflect: Call with too few input arguments")
    else
      match last (Ins t) with
      | Some sliceT =>
          match Elem sliceT with
          | Some elem =>
              match List.find (fun x => negb (AssignableTo (rvType x) elem))
                              (drop n inVs) with
              | Some x =>
                  panic (PString ("reflect: cannot use " ++ typeName (rvType x)
                                  ++ " as type " ++ typeName elem ++ " in Call"))
              | None =>
                  callResults constructor
                    (map rvInterface (take n inVs)
                     ++ [Some {| vtype := sliceT; vrepr := sliceRepr (drop n inVs) |}])
              end
          | None => panic (PString ("reflect: Elem of invalid type " ++ typeName sliceT))
          end
      | None => panic (PString "reflect: Elem of invalid type")
      end
  else if Nat.ltb (length inVs) (NumIn t) then
    panic (PString "reflect: Call with too few input arguments")
  else if Nat.ltb (NumIn t) (length inVs) then
    panic (PString "reflect: Call with too many input arguments")
  else callResults constructor (map rvInterface inVs).

(** The arguments of the function given to [reflect.MakeFunc], as reflect
    hands them over: one for each input of the function type, carrying the
    type of that input, for a variadic type the last one being the slice
    of the variadic arguments.  A call with another number of arguments
    does not get past reflect. *)
Definition stubArgs (fnType : rtype) (args : list iface) : M (list reflectValue) :=
  if Nat.ltb (length args) (NumIn fnType) then
    panic (PString "reflect: Call with too few input arguments")
  else if Nat.ltb (NumIn fnType) (length args) then
    panic (PString "reflect: Call with too many input arguments")
  else ret (zip_with Build_reflectValue (Ins fnType) args).

(** The loop of the interceptor over the results of the constructor. *)
Fixpoint rangeOutVs (outVs filteredOuts : list reflectValue) : M (list reflectValue) :=
  match outVs with
  | [] => ret filteredOuts
  | v :: rest =>
      let vType := rvType v in
      if isCleanup vType then
        bind (AddModule [rvInterface v]) (fun _ => rangeOutVs rest filteredOuts)
      else
        bind (if isModule vType then AddModule [rvInterface v] else ret tt)
             (fun _ => rangeOutVs rest (filteredOuts ++ [v]))
  end.

(** The function handed to [reflect.MakeFunc] in [provide]. *)
Definition interceptor (constructor : funcValue) (args : list iface) : M (list iface) :=
  bind (stubArgs (ftypeOf constructor) args)
       (fun argVs =>
          bind (Call constructor argVs)
               (fun outVs => bind (rangeOutVs outVs [])
                                  (fun filteredOuts => ret (map rvInterface filteredOuts)))).

(** [reflect.MakeFunc(fnType, fn)] *)
Definition MakeFunc (fnType : rtype) (fn : list iface -> M (list iface)) : funcValue :=
  {| fval := {| vtype := fnType; vrepr := "makeFuncStub" |}; fbody := fn |}.

(** The wrapped constructor that [provide] registers in place of
    [constructor]. *)
Definition wrapped (constructor : funcValue) : funcValue :=
  let ftype := ftypeOf constructor in
  let '(s1, outTypes) := scanOuts (Outs ftype) false [] in
  let '(_, inTypes) := scanIns (Ins ftype) s1 [] in
  MakeFunc (FuncOf inTypes outTypes (IsVariadic ftype)) (interceptor constructor).

(** [shouldMakeFunc] after the two loops of [provide]. *)
Definition shouldMakeFunc (ftype : rtype) : bool :=
  fst (scanIns (Ins ftype) (fst (scanOuts (Outs ftype) false [])) []).

(** [c.di.Provide(f)] followed by [if err != nil { panic(err) }]. *)
Definition provideOrPanic `{DiContainer} (f : funcValue) : M unit :=
  fun c =>
    match di_Provide f (di c) with
    | (d', Some err) => ({| Container := Container c; di := d' |}, Panic (PError err))
    | (d', None) => ({| Container := Container c; di := d' |}, Ret tt)
    end.

(** [func (c *C) provide(constructor interface{})]; [None] is the untyped
    nil. *)
Definition provide `{DiContainer} (constructor : option funcValue) : M unit :=
  match constructor with
  | None => panic (PString "can't provide an untyped nil")
  | Some ctor =>
      let ftype := ftypeOf ctor in
      if negb (bool_decide (Kind ftype = Func)) then
        panic (PString ("must provide constructor function, got " ++ vrepr (fval ctor)
                        ++ " (type " ++ typeName ftype ++ ")"))
      else if negb (shouldMakeFunc ftype) then provideOrPanic ctor
      else provideOrPanic (wrapped ctor)
  end.

(** [func (c *C) Provide(deps di.Deps)] *)
Fixpoint Provide `{DiContainer} (deps : list (option funcValue)) : M unit :=
  match deps with
  | [] => ret tt
  | dep :: rest => bind (provide dep) (fun _ => Provide rest)
  end.

(** [func (c *C) Invoke(function interface{})]: nothing is returned; an
    error of the resolver becomes a panic with a new error. *)
Definition Invoke `{DiContainer} (function : funcValue) : M unit :=
  fun c =>
    match di_Invoke function c with
    | (c', Some err) =>
        (c', Panic (PError (errorsNew (ReplaceAllString_empty (Error err)))))
    | (c', None) => (c', Ret tt)
    end.

(** The loop of [AddModuleFunc] over the output types: [targetTypes]. *)
Fixpoint targetTypesOf (outs : list rtype) (targetTypes : list rtype) : list rtype :=
  match outs with
  | [] => targetTypes
  | outT :: rest =>
      if isErr outT then targetTypesOf rest targetTypes
      else if isCleanup outT then targetTypesOf rest targetTypes
      else targetTypesOf rest (targetTypes ++ [outT])
  end.

(** [for _, arg := range args { c.AddModule(arg.Interface()) }] *)
Fixpoint rangeArgs (args : list iface) : M unit :=
  match args with
  | [] => ret tt
  | arg :: rest => bind (AddModule [arg]) (fun _ => rangeArgs rest)
  end.

(** The function that [AddModuleFunc] makes with [reflect.MakeFunc] and
    hands to the resolver: it takes the target types and returns nothing. *)
Definition moduleAdder (constructor : funcValue) : funcValue :=
  MakeFunc (FuncOf (targetTypesOf (Outs (ftypeOf constructor)) []) [] false)
           (fun args => bind (rangeArgs args) (fun _ => ret [])).

(** [func (c *C) AddModuleFunc(constructor interface{})]; on the untyped
    nil [provide] panics before anything else is looked at. *)
Definition AddModuleFunc `{DiContainer} (constructor : option funcValue) : M unit :=
  match constructor with
  | None => provide None
  | Some ctor =>
      bind (provide (Some ctor))
           (fun _ c =>
              match di_Invoke (moduleAdder ctor) c with
              | (c', Some err) => (c', Panic (PError err))
              | (c', None) => (c', Ret tt)
              end)
  end.

(** The literal of the pattern of [Invoke] without its last character. *)
Definition reLiteralInit : string :=
  " missing dependencies for function " ++ stubName ++ " ".

(** No character of [s] is a newline. *)
Fixpoint noNewline (s : string) : bool :=
  match s with
  | EmptyString => true
  | String c s' => negb (isNewline c) && noNewline s'
  end.

(** The arguments of [AddModule] before the first error among them, and
    that error. *)
Fixpoint beforeFirstError (modules : list iface) : list iface :=
  match modules with
  | [] => []
  | m :: rest =>
      match isErrorValue m with
      | Some _ => []
      | None => m :: beforeFirstError rest
      end
  end.

Fixpoint firstError (modules : list iface) : option value :=
  match modules with
  | [] => None
  | m :: rest =>
      match isErrorValue m with
      | Some e => Some e
      | None => firstError rest
      end
  end.

(** The results of a constructor that are cleanup callbacks or modules, and
    those that are not cleanup callbacks, by declared type. *)
Definition isSpecial (t : rtype) : bool := isCleanup t || isModule t.

Definition specialOuts (outVs : list reflectValue) : list iface :=
  map rvInterface (List.filter (fun v => isSpecial (rvType v)) outVs).

Definition nonCleanupOuts (outVs : list reflectValue) : list iface :=
  map rvInterface (List.filter (fun v => negb (isCleanup (rvType v))) outVs).

(** The claim on forwarding as the specification words it: the wrapped
    constructor forwards no value whose type is a cleanup callback or a
    module. *)
Definition forwardsOrdinaryOnly (constructor : funcValue) : Prop :=
  forall args c c' outs v,
    fbody (wrapped constructor) args c = (c', Ret outs) ->
    In (Some v) outs ->
    isSpecial (vtype v) = false.

(** The claim on registration as the specification words it: the
    constructor itself is what the resolver receives. *)
Definition registeredUnchanged `{DiContainer} (constructor : funcValue) : Prop :=
  forall c, provide (Some constructor) c = provideOrPanic constructor c.

End Container.
Arguments C : clear implicits.
Arguments M : clear implicits.
Arguments funcValue : clear implicits.
Arguments DiContainer : clear implicits.

End Core.

(** ** Package [core]: the options and [New] *)

Module Bootstrap.
Import Go.

(** [ConfProvider], [ConfParser] and [contract.ConfigWatcher] values: those
    the options build themselves, and any other, told apart by a number. *)
Inductive ConfProvider : Type :=
| file_Provider (path : string)
| confmap_Provider (m : list (string * iface)) (delim : string)
| customProvider (id : nat).

Inductive ConfParser : Type :=
| CodecParser_yaml
| customParser (id : nat).

Inductive ConfigWatcher : Type :=
| watcher_File (path : string)
| customWatcher (id : nat).

(** [config.ProviderSet{Parser, Provider}]; a nil parser is [None]. *)
Record ProviderSet : Type := {
  Parser : option ConfParser;
  Provider : ConfProvider
}.

Section New.
(** The types of what the providers make, and [logging.WithLevel]. *)
Context {TConf TAppName TEnv TLogger TLevelLogger TDi TDispatcher : Type}.
Context (WithLevel : TLogger -> TLevelLogger).

(** [coreValues] *)
Record coreValues : Type := {
  configStack : list ProviderSet;
  configWatcher : option ConfigWatcher;
  configProvider : list ProviderSet -> option ConfigWatcher -> TConf;
  eventDispatcherProvider : TConf -> TDispatcher;
  diProvider : TConf -> TDi;
  appNameProvider : TConf -> TAppName;
  envProvider : TConf -> TEnv;
  loggerProvider : TConf -> TAppName -> TEnv -> TLogger
}.

(** [CoreOption], a function that modifies the [coreValues] it is given. *)
Definition CoreOption : Type := coreValues -> coreValues.

(** [WithConfigStack(provider, parser)] *)
Definition WithConfigStack (provider : ConfProvider) (parser : option ConfParser)
  : CoreOption :=
  fun values =>
    {| configStack := configStack values ++ [{| Parser := parser; Provider := provider |}];
       configWatcher := configWatcher values;
       configProvider := configProvider values;
       eventDispatcherProvider := eventDispatcherProvider values;
       diProvider := diProvider values;
       appNameProvider := appNameProvider values;
       envProvider := envProvider values;
       loggerProvider := loggerProvider values |}.

(** [WithConfigWatcher(watcher)] *)
Definition WithConfigWatcher (watcher : option ConfigWatcher) : CoreOption :=
  fun values =>
    {| configStack := configStack values;
       configWatcher := watcher;
       configProvider := configProvider values;
       eventDispatcherProvider := eventDispatcherProvider values;
       diProvider := diProvider values;
       appNameProvider := appNameProvider values;
       envProvider := envProvider values;
       loggerProvider := loggerProvider values |}.

(** [WithYamlFile(path)], the two options it returns. *)
Definition WithYamlFile (path : string) : CoreOption * CoreOption :=
  (WithConfigStack (file_Provider path) (Some CodecParser_yaml),
   WithConfigWatcher (Some (watcher_File path))).

(** [WithInline(key, entry)] *)
Definition WithInline (key : string) (entry : iface) : CoreOption :=
  WithConfigStack (confmap_Provider [(key, entry)] ".") None.

(** [SetConfigProvider], [SetAppNameProvider], [SetEnvProvider],
    [SetLoggerProvider], [SetDiProvider], [SetEventDispatcherProvider] *)
Definition SetConfigProvider
    (provider : list ProviderSet -> option ConfigWatcher -> TConf) : CoreOption :=
  fun values =>
    {| configStack := configStack values;
       configWatcher := configWatcher values;
       configProvider := provider;
       eventDispatcherProvider := eventDispatcherProvider values;
       diProvider := diProvider values;
       appNameProvider := appNameProvider values;
       envProvider := envProvider values;
       loggerProvider := loggerProvider values |}.

Definition SetAppNameProvider (provider : TConf -> TAppName) : CoreOption :=
  fun values =>
    {| configStack := configStack values;
       configWatcher := configWatcher values;
       configProvider := configProvider values;
       eventDispatcherProvider := eventDispatcherProvider values;
       diProvider := diProvider values;
       appNameProvider := provider;
       envProvider := envProvider values;
       loggerProvider := loggerProvider values |}.

Definition SetEnvProvider (provider : TConf -> TEnv) : CoreOption :=
  fun values =>
    {| configStack := configStack values;
       configWatcher := configWatcher values;
       configProvider := configProvider values;
       eventDispatcherProvider := eventDispatcherProvider values;
       diProvider := diProvider values;
       appNameProvider := appNameProvider values;
       envProvider := provider;
       loggerProvider := loggerProvider values |}.

Definition SetLoggerProvider (provider : TConf -> TAppName -> TEnv -> TLogger)
  : CoreOption :=
  fun values =>
    {| configStack := configStack values;
       configWatcher := configWatcher values;
       configProvider := configProvider values;
       eventDispatcherProvider := eventDispatcherProvider values;
       diProvider := diProvider values;
       appNameProvider := appNameProvider values;
       envProvider := envProvider values;
       loggerProvider := provider |}.

Definition SetDiProvider (provider : TConf -> TDi) : CoreOption :=
  fun values =>
    {| configStack := configStack values;
       configWatcher := configWatcher values;
       configProvider := configProvider values;
       eventDispatcherProvider := eventDispatcherProvider values;
       diProvider := provider;
       appNameProvider := appNameProvider values;
       envProvider := envProvider values;
       loggerProvider := loggerProvider values |}.

Definition SetEventDispatcherProvider (provider : TConf -> TDispatcher) : CoreOption :=
  fun values =>
    {| configStack := configStack values;
       configWatcher := configWatcher values;
       configProvider := configProvider values;
       eventDispatcherProvider := provider;
       diProvider := diProvider values;
       appNameProvider := appNameProvider values;
       envProvider := envProvider values;
       loggerProvider := loggerProvider values |}.

(** [C], all its fields; [Container] holds the modules, none at first. *)
Record C : Type := {
  AppName : TAppName;
  Env : TEnv;
  ConfigAccessor : TConf;
  LevelLogger : TLevelLogger;
  Container : list iface;
  Dispatcher : TDispatcher;
  di : TDi
}.

(** [for _, f := range opts { f(&values) }] *)
Definition applyOptions (opts : list CoreOption) (values : coreValues) : coreValues :=
  fold_left (fun v f => f v) opts values.

(** [func New(opts ...CoreOption) *C]; [defaults] holds the empty stack, no
    watcher and the six [Provide...] functions, which are not embedded from
    source here. *)
Definition New (defaults : coreValues) (opts : list CoreOption) : C :=
  let values := applyOptions opts defaults in
  let conf := configProvider values (configStack values) (configWatcher values) in
  let env := envProvider values conf in
  let appName := appNameProvider values conf in
  let logger := loggerProvider values conf appName env in
  let diContainer := diProvider values conf in
  let dispatcher := eventDispatcherProvider values conf in
  {| AppName := appName;
     Env := env;
     ConfigAccessor := conf;
     LevelLogger := WithLevel logger;
     Container := [];
     Dispatcher := dispatcher;
     di := diContainer |}.

(** The calls that build options, as data, to speak of a list of options
    by what built each of them. *)
Inductive optionCall : Type :=
| callWithConfigStack (provider : ConfProvider) (parser : option ConfParser)
| callWithInline (key : string) (entry : iface)
| callWithYamlFile (path : string)
| callWithConfigWatcher (watcher : option ConfigWatcher)
| callSetConfigProvider (provider : list ProviderSet -> option ConfigWatcher -> TConf)
| callSetAppNameProvider (provider : TConf -> TAppName)
| callSetEnvProvider (provider : TConf -> TEnv)
| callSetLoggerProvider (provider : TConf -> TAppName -> TEnv -> TLogger)
| callSetDiProvider (provider : TConf -> TDi)
| callSetEventDispatcherProvider (provider : TConf -> TDispatcher).

(** The options a call returns. *)
Definition optionsOf (call : optionCall) : list CoreOption :=
  match call with
  | callWithConfigStack provider parser => [WithConfigStack provider parser]
  | callWithInline key entry => [WithInline key entry]
  | callWithYamlFile path => [(WithYamlFile path).1; (WithYamlFile path).2]
  | callWithConfigWatcher watcher => [WithConfigWatcher watcher]
  | callSetConfigProvider provider => [SetConfigProvider provider]
  | callSetAppNameProvider provider => [SetAppNameProvider provider]
  | callSetEnvProvider provider => [SetEnvProvider provider]
  | callSetLoggerProvider provider => [SetLoggerProvider provider]
  | callSetDiProvider provider => [SetDiProvider provider]
  | callSetEventDispatcherProvider provider => [SetEventDispatcherProvider provider]
  end.

(** The layers a call adds to the configuration stack. *)
Definition layersOf (call : optionCall) : list ProviderSet :=
  match call with
  | callWithConfigStack provider parser => [{| Parser := parser; Provider := provider |}]
  | callWithInline key entry =>
      [{| Parser := None; Provider := confmap_Provider [(key, entry)] "." |}]
  | callWithYamlFile path =>
      [{| Parser := Some CodecParser_yaml; Provider := file_Provider path |}]
  | _ => []
  end.

(** What a call sets the watcher to, if it sets it, and likewise for each
    provider. *)
Definition watcherSet (call : optionCall) : option (option ConfigWatcher) :=
  match call with
  | callWithConfigWatcher watcher => Some watcher
  | callWithYamlFile path => Some (Some (watcher_File path))
  | _ => None
  end.

Definition configProviderSet (call : optionCall)
  : option (list ProviderSet -> option ConfigWatcher -> TConf) :=
  match call with callSetConfigProvider p => Some p | _ => None end.

Definition appNameProviderSet (call : optionCall) : option (TConf -> TAppName) :=
  match call with callSetAppNameProvider p => Some p | _ => None end.

Definition envProviderSet (call : optionCall) : option (TConf -> TEnv) :=
  match call with callSetEnvProvider p => Some p | _ => None end.

Definition loggerProviderSet (call : optionCall)
  : option (TConf -> TAppName -> TEnv -> TLogger) :=
  match call with callSetLoggerProvider p => Some p | _ => None end.

Definition diProviderSet (call : optionCall) : option (TConf -> TDi) :=
  match call with callSetDiProvider p => Some p | _ => None end.

Definition eventDispatcherProviderSet (call : optionCall) : option (TConf -> TDispatcher) :=
  match call with callSetEventDispatcherProvider p => Some p | _ => None end.

(** What the last of the calls that set something set it to, [d] when none
    of them sets it. *)
Definition lastSet {A} (pick : optionCall -> option A) (calls : list optionCall) (d : A) : A :=
  default d (last (omap pick calls)).

End New.

End Bootstrap.

(** ** Package [di]: the factory of named connections *)

Module Di.
Import Go.

Section Factory.
(** [W] is what a builder reads and writes (the configuration behind its
    accessor, the log); [T] is the connection type. *)
Context {W T : Type}.

(** [di.Pair{Conn, Closer}]; the closer closes the connection it names. *)
Record Pair : Type := { Conn : T; Closer : T }.

(** The function given to [di.NewFactory]: a pair or an error, unless it
    panics. *)
Definition Builder : Type := string -> W -> W * outcome (Pair + error).

(** Modelled from the spec: [di.Factory], not embedded from source here.  It holds the builder and the entries made so far, by name;
    [built] records each call of the builder. *)
Record Factory : Type := {
  builder : Builder;
  cache : gmap string Pair;
  built : list string
}.

(** Modelled from the spec: [di.NewFactory(builder)], an empty factory. *)
Definition NewFactory (b : Builder) : Factory :=
  {| builder := b; cache := ∅; built := [] |}.

(** Modelled from the spec: [Factory.Make(name)] returns the cached instance
    for [name] if present; otherwise it invokes the builder with [name],
    caches the result on success and returns it.  A failure is not
    cached. *)
Definition Make (f : Factory) (name : string) (w : W)
  : Factory * W * outcome (T + error) :=
  match cache f !! name with
  | Some p => (f, w, Ret (inl (Conn p)))
  | None =>
      let called := built f ++ [name] in
      match builder f name w with
      | (w', Ret (inl p)) =>
          ({| builder := builder f; cache := <[name := p]> (cache f); built := called |},
           w', Ret (inl (Conn p)))
      | (w', Ret (inr err)) =>
          ({| builder := builder f; cache := cache f; built := called |},
           w', Ret (inr err))
      | (w', Panic pv) =>
          ({| builder := builder f; cache := cache f; built := called |},
           w', Panic pv)
      end
  end.

(** What [Make] returns for what the builder returned. *)
Definition made (r : outcome (Pair + error)) : outcome (T + error) :=
  match r with
  | Ret (inl p) => Ret (inl (Conn p))
  | Ret (inr err) => Ret (inr err)
  | Panic pv => Panic pv
  end.

(** The number of calls of the builder for [name]. *)
Definition builtFor (f : Factory) (name : string) : nat :=
  count_occ string_dec (built f) name.

(** What may happen to a factory and its surroundings after a call of
    [Make]: further calls of [Make], for any name, and changes of the
    surroundings (a configuration reload is not among them). *)
Inductive later : Factory * W -> Factory * W -> Prop :=
| later_refl fw : later fw fw
| later_Make f w name f' w' r fw'' :
    Make f name w = (f', w', r) ->
    later (f', w') fw'' ->
    later (f, w) fw''
| later_world f w w' fw'' :
    later (f, w') fw'' ->
    later (f, w) fw''.

End Factory.
Arguments Pair : clear implicits.
Arguments Builder : clear implicits.
Arguments Factory : clear implicits.

End Di.

(** ** Package [otkafka]: the providers of readers and writers *)

Module Otkafka.
Import Go Di.

(** The declarations of [otkafka] and [kafka-go] that the providers use and
    that are not embedded from source here. *)
Class KafkaDecls : Type := {
  ReaderConfig : Type;
  WriterConfig : Type;
  kafka_ReaderConfig : Type;
  kafka_Reader : Type;
  kafka_Writer : Type;
  Tracer : Type;
  ReaderStats : Type;
  WriterStats : Type;
  readerCollector : Type;
  writerCollector : Type;
  fromReaderConfig : ReaderConfig -> kafka_ReaderConfig;
  fromWriterConfig : WriterConfig -> kafka_Writer;
  (** [conf.Logger = ...; conf.ErrorLogger = ...] *)
  setReaderLoggers : kafka_ReaderConfig -> kafka_ReaderConfig;
  (** [writer.Logger = ...; writer.ErrorLogger = ...; writer.Transport =
      NewTransport(kafka.DefaultTransport, p.Tracer)] *)
  setWriterFields : option Tracer -> kafka_Writer -> kafka_Writer;
  (** [kafka.NewReader(conf)], which panics on a configuration it does not
      accept. *)
  kafka_NewReader : kafka_ReaderConfig -> outcome kafka_Reader;
  newReaderCollector : ReaderStats -> nat -> readerCollector;
  newWriterCollector : WriterStats -> nat -> writerCollector
}.

Section Providers.
Context `{KafkaDecls}.

(** [contract.ConfigAccessor.Unmarshal(path, &target) error], one view for
    each type of target the providers pass. *)
Record ConfigAccessor : Type := {
  Unmarshal_ReaderConfig : string -> ReaderConfig + error;
  Unmarshal_WriterConfig : string -> WriterConfig + error;
  Unmarshal_Duration : string -> nat + error
}.

(** A value of the configuration store, by the target it decodes to. *)
Inductive Raw : Type :=
| RawReader (c : ReaderConfig)
| RawWriter (c : WriterConfig)
| RawDuration (d : nat)
| RawScalar (s : string).

(** The causes of a failed [Unmarshal]. *)
Definition absent (path : string) : error := errorsNew (path ++ " is absent").
Definition malformed (path : string) : error := errorsNew (path ++ " is malformed").

(** Modelled from the spec: a [ConfigAccessor] over a path-addressed store,
    not embedded from source here.  [Unmarshal] fails when the path is
    absent and when the value there is malformed for the target. *)
Definition storeAccessor (store : gmap string Raw) : ConfigAccessor :=
  {| Unmarshal_ReaderConfig := fun path =>
       match store !! path with
       | Some (RawReader c) => inl c
       | Some _ => inr (malformed path)
       | None => inr (absent path)
       end;
     Unmarshal_WriterConfig := fun path =>
       match store !! path with
       | Some (RawWriter c) => inl c
       | Some _ => inr (malformed path)
       | None => inr (absent path)
       end;
     Unmarshal_Duration := fun path =>
       match store !! path with
       | Some (RawDuration d) => inl d
       | Some _ => inr (malformed path)
       | None => inr (absent path)
       end |}.

(** The path is absent from the store or holds no writer configuration. *)
Definition writerPathInvalid (store : gmap string Raw) (path : string) : Prop :=
  forall c, store !! path <> Some (RawWriter c).

(** A line written by a levelled logger: [level.Warn(logger).Log("err", err)]. *)
Record LogLine : Type := { lvl : string; key : string; val : error }.

(** What [p.Conf] and [p.Logger] refer to: the configuration as it stands
    and the lines logged so far. *)
Record World : Type := {
  Conf : ConfigAccessor;
  Logger : list LogLine
}.

Definition Warn (err : error) (w : World) : World :=
  {| Conf := Conf w;
     Logger := Logger w ++ [{| lvl := "warn"; key := "err"; val := err |}] |}.

(** [factoryIn], without [Conf] and [Logger], which are in the [World].  A
    nil function or pointer is [None]. *)
Record factoryIn : Type := {
  ReaderInterceptor : option (string -> kafka_ReaderConfig -> kafka_ReaderConfig);
  WriterInterceptor : option (string -> kafka_Writer -> kafka_Writer);
  Tracer_ : option Tracer;
  ReaderStats_ : option ReaderStats;
  WriterStats_ : option WriterStats
}.

(** The panic of the runtime on a call of a nil function. *)
Definition nilDereference : panicValue :=
  PError (errorsNew "runtime error: invalid memory address or nil pointer dereference").

(** [fmt.Sprintf("kafka.reader.%s", name)], [fmt.Sprintf("kafka.writer.%s", name)] *)
Definition readerPath (name : string) : string := "kafka.reader." ++ name.
Definition writerPath (name : string) : string := "kafka.writer." ++ name.

(** [client := kafka.NewReader(conf)] and the pair made of the client. *)
Definition newReaderPair (conf : kafka_ReaderConfig) (w : World)
  : World * outcome (Pair kafka_Reader + error) :=
  match kafka_NewReader conf with
  | Ret client => (w, Ret (inl {| Conn := client; Closer := client |}))
  | Panic pv => (w, Panic pv)
  end.

(** The builder of [provideReaderFactory]. *)
Definition readerBuilder (p : factoryIn) : Builder World kafka_Reader :=
  fun name w =>
    match Unmarshal_ReaderConfig (Conf w) (readerPath name) with
    | inr err =>
        (w, Ret (inr (wrapError ("kafka reader configuration " ++ name
                                  ++ " not valid: " ++ Error err) err)))
    | inl readerConfig =>
        let conf := setReaderLoggers (fromReaderConfig readerConfig) in
        match WriterInterceptor p with
        | Some _ =>
            match ReaderInterceptor p with
            | Some intercept => newReaderPair (intercept name conf) w
            | None => (w, Panic nilDereference)
            end
        | None => newReaderPair conf w
        end
    end.

(** The builder of [provideWriterFactory]. *)
Definition writerBuilder (p : factoryIn) : Builder World kafka_Writer :=
  fun name w =>
    match Unmarshal_WriterConfig (Conf w) (writerPath name) with
    | inr err =>
        (w, Ret (inr (wrapError ("kafka writer configuration " ++ name
                                  ++ " not valid: " ++ Error err) err)))
    | inl writerConfig =>
        let writer := setWriterFields (Tracer_ p) (fromWriterConfig writerConfig) in
        let writer :=
          match WriterInterceptor p with
          | Some intercept => intercept name writer
          | None => writer
          end in
        (w, Ret (inl {| Conn := writer; Closer := writer |}))
    end.

(** The cleanup functions returned by the providers. *)
Inductive cleanup : Type := ReaderFactory_Close | WriterFactory_Close.

(** [provideReaderFactory], [provideWriterFactory] *)
Definition provideReaderFactory (p : factoryIn) : Factory World kafka_Reader * cleanup :=
  (NewFactory (readerBuilder p), ReaderFactory_Close).

Definition provideWriterFactory (p : factoryIn) : Factory World kafka_Writer * cleanup :=
  (NewFactory (writerBuilder p), WriterFactory_Close).

(** [factoryOut]; a nil pointer is [None]. *)
Record factoryOut : Type := {
  ReaderFactory : Factory World kafka_Reader;
  WriterFactory : Factory World kafka_Writer;
  ReaderMaker : Factory World kafka_Reader;
  WriterMaker : Factory World kafka_Writer;
  Reader : option kafka_Reader;
  Writer : option kafka_Writer;
  ReaderCollector : option readerCollector;
  WriterCollector : option writerCollector
}.

(** [dr, err1 := rf.Make("default")] and the warning that follows. *)
Definition makeDefault {T} (f : Factory World T) (w : World)
  : Factory World T * World * outcome (option T) :=
  match Make f "default" w with
  | (f', w', Ret (inl conn)) => (f', w', Ret (Some conn))
  | (f', w', Ret (inr err)) => (f', Warn err w', Ret None)
  | (f', w', Panic pv) => (f', w', Panic pv)
  end.

(** [p.Conf.Unmarshal("kafkaMetrics.interval", &interval)], the error
    dropped. *)
Definition metricsInterval (w : World) : nat :=
  match Unmarshal_Duration (Conf w) "kafkaMetrics.interval" with
  | inl d => d
  | inr _ => 0
  end.

(** [func provideKafkaFactory(p factoryIn) (factoryOut, func(), func(), error)] *)
Definition provideKafkaFactory (p : factoryIn) (w : World)
  : World * outcome (factoryOut * cleanup * cleanup * option error) :=
  let '(rf, rc) := provideReaderFactory p in
  let '(wf, wc) := provideWriterFactory p in
  match makeDefault rf w with
  | (_, w1, Panic pv) => (w1, Panic pv)
  | (rf, w1, Ret dr) =>
      match makeDefault wf w1 with
      | (_, w2, Panic pv) => (w2, Panic pv)
      | (wf, w2, Ret dw) =>
          let '(readerCollector, writerCollector) :=
            if bool_decide (ReaderStats_ p <> None) || bool_decide (WriterStats_ p <> None)
            then
              let interval := metricsInterval w2 in
              (match ReaderStats_ p with
               | Some stats => Some (newReaderCollector stats interval)
               | None => None
               end,
               match WriterStats_ p with
               | Some stats => Some (newWriterCollector stats interval)
               | None => None
               end)
            else (None, None) in
          (w2, Ret ({| ReaderMaker := rf; ReaderFactory := rf;
                       WriterMaker := wf; WriterFactory := wf;
                       Reader := dr; Writer := dw;
                       ReaderCollector := readerCollector;
                       WriterCollector := writerCollector |},
                    wc, rc, None))
      end
  end.



End Providers.

End Otkafka.

(** ** The orchestrator behind [C.Serve] *)

Module Orchestrator.
Import Go Events.

Section Serve.
(** [W] is the state the modules and the listeners act upon. *)
Context {W : Type}.

(** Modelled from the spec: a module as [Serve] sees it, not embedded from source here.  It has an identity carried by its events, the
    configuration key that disables it ([http.disable], [grpc.disable],
    ...), and a [run] that blocks until it completes. *)
Record Module : Type := {
  identity : string;
  disableKey : string;
  run : W -> W * option error
}.

Definition ModuleStart : string := "ModuleStart".
Definition ModuleShutdown : string := "ModuleShutdown".

(** What a run of [Serve] did: the modules whose [run] was started, the
    events published (topic and identity), the listeners called. *)
Record Trace : Type := {
  started : list string;
  published : list (string * string);
  called : list nat
}.

Definition noTrace : Trace := {| started := []; published := []; called := [] |}.

Definition appendTrace (a b : Trace) : Trace :=
  {| started := started a ++ started b;
     published := published a ++ published b;
     called := called a ++ called b |}.

(** Modelled from the spec: one module under [Serve].  A module disabled by
    configuration is skipped; for any other a [ModuleStart] event is
    published before its [run] begins and a [ModuleShutdown] event after it
    returns. *)
Definition serveModule (disabled : string -> bool) (d : SyncDispatcher W string)
    (m : Module) (w : W) : W * Trace * option error :=
  if disabled (disableKey m) then (w, noTrace, None)
  else
    let '(w1, c1, _) := Dispatch d ModuleStart (identity m) w in
    let '(w2, err) := run m w1 in
    let '(w3, c2, _) := Dispatch d ModuleShutdown (identity m) w2 in
    (w3,
     {| started := [identity m];
        published := [(ModuleStart, identity m); (ModuleShutdown, identity m)];
        called := c1 ++ c2 |},
     err).

(** Modelled from the spec: [Serve] over the registered modules, in the
    schedule that takes them one after the other in registration order; the
    first error is the one returned. *)
Fixpoint Serve (disabled : string -> bool) (d : SyncDispatcher W string)
    (ms : list Module) (w : W) : W * Trace * option error :=
  match ms with
  | [] => (w, noTrace, None)
  | m :: rest =>
      let '(w1, t1, e1) := serveModule disabled d m w in
      let '(w2, t2, e2) := Serve disabled d rest w1 in
      (w2, appendTrace t1 t2, match e1 with Some e => Some e | None => e2 end)
  end.

Definition enabled (disabled : string -> bool) (ms : list Module) : list Module :=
  List.filter (fun m => negb (disabled (disableKey m))) ms.

Definition allDisabled (disabled : string -> bool) (ms : list Module) : list Module :=
  List.filter (fun m => disabled (disableKey m)) ms.

End Serve.
Arguments Module : clear implicits.

End Orchestrator.

(** ** Concrete constructors, resolvers and configurations *)

Module Scenarios.
Import Go Core.

(** A resolver that records the rendering of each function provided and
    answers every [Invoke] with [answer]. *)
Definition recordingDi (answer : option error) : DiContainer (list string) :=
  {| di_Provide := fun f d => (d ++ [vrepr (fval f)], None);
     di_Invoke := fun _ c => (c, answer) |}.

Definition emptyC : C (list string) := {| Container := []; di := [] |}.

Definition tInt : rtype := mkType "int" Basic [] [] false [].
Definition tA : rtype := mkType "core.a" Struct [] [] false [].
Definition tB : rtype := mkType "core.b" Struct [] [] false [].
Definition tM1 : rtype := mkType "core.m1" Struct [] [] false ["ModuleSentinel"].
Definition tCleanup : rtype := FuncOf [] [] false.
Definition tMyErr : rtype := mkType "core.myErr" Struct [] [] false ["Error"].

Definition vM1 : value := {| vtype := tM1; vrepr := "{}" |}.
Definition vA : value := {| vtype := tA; vrepr := "{}" |}.
Definition vB : value := {| vtype := tB; vrepr := "{}" |}.
Definition vCleanup : value := {| vtype := tCleanup; vrepr := "0x1" |}.
Definition vInt : value := {| vtype := tInt; vrepr := "7" |}.
Definition vErr : value := {| vtype := tMyErr; vrepr := "boom" |}.

(** [func() m1 { return m1{} }], of [TestC_Provide]. *)
Definition newM1 : funcValue (list string) :=
  {| fval := {| vtype := FuncOf [] [tM1] false; vrepr := "newM1" |};
     fbody := fun _ => ret [Some vM1] |}.

(** [func(m m1) int { return 7 }]: a module among the inputs only. *)
Definition useM1 : funcValue (list string) :=
  {| fval := {| vtype := FuncOf [tM1] [tInt] false; vrepr := "useM1" |};
     fbody := fun _ => ret [Some vInt] |}.

(** [func(b b) (a, func(), error)], [mockConstructor] of the tests. *)
Definition mockConstructor : funcValue (list string) :=
  {| fval := {| vtype := FuncOf [tB] [tA; tCleanup; _errType] false;
                vrepr := "mockConstructor" |};
     fbody := fun _ => ret [Some vA; Some vCleanup; None] |}.

(** [func(b b) a]: no cleanup callback and no module anywhere. *)
Definition plainConstructor : funcValue (list string) :=
  {| fval := {| vtype := FuncOf [tB] [tA] false; vrepr := "plainConstructor" |};
     fbody := fun _ => ret [Some vA] |}.

(** [func() error { return fmt.Errorf("boom: %w", cause) }], a target of
    [Invoke], and the error it returns. *)
Definition boom : error := wrapError "boom: cause" (plainError "cause").

Definition failingTarget : funcValue (list string) :=
  {| fval := {| vtype := FuncOf [] [_errType] false; vrepr := "failingTarget" |};
     fbody := fun _ => ret [Some vErr] |}.

(** The message of the resolver when [mockConstructor], wrapped, lacks its
    input [b]: the frame of the stub is a [missing dependencies] frame. *)
Definition missingDirect : string :=
  "could not build arguments for function " ++ dq ++ "core" ++ dq
  ++ ".TestNew_missingDependencyErrorMessage.func2 (c_test.go:222): failed to build core.a:"
  ++ " missing dependencies for function " ++ stubName
  ++ " (/usr/local/go/src/reflect/asm_amd64.s:30): missing type: core.b".

(** The message of the resolver when the input [b] of the wrapped
    [mockConstructor] has a constructor [newB] that lacks its own input
    [c]: the frame of the stub is a [could not build arguments] frame. *)
Definition missingTransitive : string :=
  "could not build arguments for function " ++ dq ++ "core" ++ dq
  ++ ".TestNew_missingDependencyErrorMessage.func2 (c_test.go:222): failed to build core.a:"
  ++ " could not build arguments for function " ++ stubName
  ++ " (/usr/local/go/src/reflect/asm_amd64.s:30): failed to build core.b:"
  ++ " missing dependencies for function " ++ dq ++ "core" ++ dq
  ++ ".newB (c_test.go:210): missing type: core.c".

(** A configuration of a reader or a writer, as far as it is looked at
    here: the brokers and the topic. *)
Record kafkaConf : Type := { Brokers : list string; Topic : string }.

(** [kafka.NewReader] of kafka-go v0.4.16 on the two fields: it panics with
    the error of [ReaderConfig.Validate], which refuses an empty list of
    brokers and an empty topic, and otherwise returns a reader without
    connecting. *)
Definition newReader (conf : kafkaConf) : outcome kafkaConf :=
  match Brokers conf with
  | [] =>
      Panic (PError (errorsNew
        "cannot create a new kafka reader with an empty list of broker addresses"))
  | _ :: _ =>
      if String.eqb (Topic conf) EmptyString
      then Panic (PError (errorsNew "cannot create a new kafka reader with an empty topic"))
      else Ret conf
  end.

(** Declarations for [otkafka] in which a configuration is its brokers and
    its topic, and a connection is the configuration it was made from. *)
Definition brokersAndTopic : Otkafka.KafkaDecls :=
  {| Otkafka.ReaderConfig := kafkaConf;
     Otkafka.WriterConfig := kafkaConf;
     Otkafka.kafka_ReaderConfig := kafkaConf;
     Otkafka.kafka_Reader := kafkaConf;
     Otkafka.kafka_Writer := kafkaConf;
     Otkafka.Tracer := unit;
     Otkafka.ReaderStats := unit;
     Otkafka.WriterStats := unit;
     Otkafka.readerCollector := nat;
     Otkafka.writerCollector := nat;
     Otkafka.fromReaderConfig := fun c => c;
     Otkafka.fromWriterConfig := fun c => c;
     Otkafka.setReaderLoggers := fun c => c;
     Otkafka.setWriterFields := fun _ w => w;
     Otkafka.kafka_NewReader := newReader;
     Otkafka.newReaderCollector := fun _ interval => interval;
     Otkafka.newWriterCollector := fun _ interval => interval |}.

#[local] Existing Instance brokersAndTopic.

(** The local broker and the topic [events]. *)
Definition localBrokers : kafkaConf :=
  {| Brokers := ["127.0.0.1:9092"]; Topic := "events" |}.

(** [ReaderConfig{Brokers: []string{"127.0.0.1:9092"}}], the configuration
    of the default reader that [provideConfig] exports: no topic. *)
Definition exportedDefault : kafkaConf :=
  {| Brokers := ["127.0.0.1:9092"]; Topic := EmptyString |}.

(** A [factoryIn] with nothing optional supplied. *)
Definition bareIn : Otkafka.factoryIn (H := brokersAndTopic) :=
  {| Otkafka.ReaderInterceptor := None;
     Otkafka.WriterInterceptor := None;
     Otkafka.Tracer_ := None;
     Otkafka.ReaderStats_ := None;
     Otkafka.WriterStats_ := None |}.

(** A [factoryIn] with a writer interceptor and no reader interceptor. *)
Definition writerInterceptorOnly : Otkafka.factoryIn (H := brokersAndTopic) :=
  {| Otkafka.ReaderInterceptor := None;
     Otkafka.WriterInterceptor := Some (fun _ w => w);
     Otkafka.Tracer_ := None;
     Otkafka.ReaderStats_ := None;
     Otkafka.WriterStats_ := None |}.

(** The world over a configuration store, nothing logged yet. *)
Definition worldOf (store : gmap string (Otkafka.Raw (H := brokersAndTopic)))
  : Otkafka.World (H := brokersAndTopic) :=
  {| Otkafka.Conf := Otkafka.storeAccessor store; Otkafka.Logger := [] |}.

Definition noConfig : gmap string (Otkafka.Raw (H := brokersAndTopic)) := ∅.

Definition writerConfigured : gmap string (Otkafka.Raw (H := brokersAndTopic)) :=
  <["kafka.writer.default" := Otkafka.RawWriter localBrokers]> noConfig.

Definition readerConfigured : gmap string (Otkafka.Raw (H := brokersAndTopic)) :=
  <["kafka.reader.default" := Otkafka.RawReader localBrokers]> noConfig.


Definition defaultsAsExported : gmap string (Otkafka.Raw (H := brokersAndTopic)) :=
  <["kafka.reader.default" := Otkafka.RawReader exportedDefault]> writerConfigured.

(** [interface{}] and [[]interface{}]. *)
Definition tAny : rtype := mkType "interface {}" Interface [] [] false [].
Definition tAnys : rtype := sliceOf tAny.



(** [func(xs ...interface{}) (interface{}, func()) { return xs, func() {} }] *)
Definition echoAll : funcValue (list string) :=
  {| fval := {| vtype := FuncOf [tAnys] [tAny; tCleanup] true; vrepr := "echoAll" |};
     fbody := fun args => ret [default None (head args); Some vCleanup] |}.

(** [[]interface{}{}] and [[]interface{}{[]interface{}{}}]. *)
Definition noAnys : value := {| vtype := tAnys; vrepr := "[]" |}.
Definition nestedAnys : value := {| vtype := tAnys; vrepr := "[[]]" |}.

(** The modules and listeners of [TestC_ServeDisable]; the state counts the
    calls of the listeners. *)
Definition healthCheck (name key : string) : Orchestrator.Module nat :=
  {| Orchestrator.identity := name;
     Orchestrator.disableKey := key;
     Orchestrator.run := fun n => (n, None) |}.

Definition httpAndGrpc : list (Orchestrator.Module nat) :=
  [healthCheck "srvhttp.HealthCheckModule" "http.disable";
   healthCheck "srvgrpc.HealthCheckModule" "grpc.disable"].

Definition counting (id : nat) (topic : string) : Events.Listener nat string :=
  {| Events.lid := id;
     Events.Listen := topic;
     Events.Process := fun _ n => (S n, None) |}.

Definition countingDispatcher : Events.SyncDispatcher nat string :=
  Events.subscribeAll Events.newDispatcher
    [counting 1 Orchestrator.ModuleStart; counting 2 Orchestrator.ModuleShutdown].

(** [http.disable], [grpc.disable] and [cron.disable] set to true. *)
Definition serversDisabled (key : string) : bool :=
  String.eqb key "http.disable" || String.eqb key "grpc.disable"
  || String.eqb key "cron.disable".

Definition nothingDisabled (key : string) : bool := false.

End Scenarios.

(** * Properties *)

(** ** The dispatcher *)

Section DispatcherFacts.
Import Go Events.
Context {W Ev : Type}.
Implicit Types (d : SyncDispatcher W Ev) (l : Listener W Ev) (ls : list (Listener W Ev)).

Lemma listenersOf_Subscribe d l topic :
  listenersOf (Subscribe d l) topic =
  listenersOf d topic ++ (if String.eqb (Listen l) topic then [l] else []).
Proof.
  unfold listenersOf, Subscribe; simpl.
  destruct (String.eqb_spec (Listen l) topic) as [->|Hne].
  - now rewrite lookup_insert_eq.
  - rewrite lookup_insert_ne by assumption. now rewrite app_nil_r.
Qed.

Lemma listenersOf_subscribeAll ls : forall d topic,
  listenersOf (subscribeAll d ls) topic = listenersOf d topic ++ listening topic ls.
Proof.
  induction ls as [|l ls IH]; intros d topic; simpl.
  - now rewrite app_nil_r.
  - unfold subscribeAll in *; simpl. rewrite IH, listenersOf_Subscribe.
    rewrite <- app_assoc. f_equal.
    unfold listening; simpl. now destruct (String.eqb (Listen l) topic).
Qed.

Lemma Dispatch_listenersOf d topic (event : Ev) (w : W) :
  Dispatch d topic event w = rangeListeners (listenersOf d topic) event w.
Proof.
  unfold Dispatch, listenersOf. now destruct (registry d !! topic).
Qed.

Lemma rangeListeners_Delivered ls : forall (event : Ev) (w : W),
  Delivered ls event w (rangeListeners ls event w).
Proof.
  induction ls as [|l ls IH]; intros event w; simpl.
  - left. exists w. split; [constructor | reflexivity].
  - destruct (Process l event w) as [w1 [err|]] eqn:Hp.
    + right. exists [], l, ls, w, w1, err. repeat split; try constructor; assumption.
    + destruct (IH event w1) as [(w' & Hall & Hres) | (pre & x & post & wa & w' & err & Hls & Hall & Hx & Hres)];
        rewrite Hres.
      * left. exists w'. split; [econstructor; eassumption | reflexivity].
      * right. exists (l :: pre), x, post, wa, w', err. subst ls.
        repeat split; try assumption. econstructor; eassumption.
Qed.

Lemma listening_others topic ls :
  listening topic (List.filter (fun l => negb (String.eqb (Listen l) topic)) ls) = [].
Proof.
  induction ls as [|l ls IH]; simpl; [reflexivity|].
  destruct (String.eqb (Listen l) topic) eqn:Hl; simpl; [assumption|].
  now rewrite Hl.
Qed.

(** C4. After the listeners [ls] have subscribed in that order to a fresh
    dispatcher, [Dispatch] on a topic calls exactly the listeners of [ls]
    that listen to the topic, in subscription order: all of them when all
    return nil, and then it returns nil; otherwise up to and including the
    first one that errs, whose error it returns, no later one being called.
    When only listeners of other topics have subscribed, it calls nothing
    and returns nil. *)
Theorem Dispatch_in_subscription_order ls topic (event : Ev) (w : W) :
  Delivered (listening topic ls) event w
            (Dispatch (subscribeAll newDispatcher ls) topic event w) /\
  Dispatch (subscribeAll newDispatcher
              (List.filter (fun l => negb (String.eqb (Listen l) topic)) ls))
           topic event w = (w, [], None).
Proof.
  rewrite !Dispatch_listenersOf, !listenersOf_subscribeAll.
  unfold listenersOf; simpl. rewrite lookup_empty; simpl.
  split.
  - apply rangeListeners_Delivered.
  - now rewrite listening_others.
Qed.

End DispatcherFacts.

(** ** The container: [AddModule], [provide], [Invoke] *)

Section ContainerFacts.
Import Go Core.
Context {D : Type}.
Implicit Types (c : C D) (modules : list iface) (ctor : funcValue D).

Lemma AddModule_app modules1 : forall modules2 c,
  AddModule (modules1 ++ modules2) c =
  bind (AddModule modules1) (fun _ => AddModule modules2) c.
Proof.
  induction modules1 as [|m rest IH]; intros modules2 c; simpl.
  - reflexivity.
  - destruct (isErrorValue m) as [e|]; [reflexivity|].
    unfold bind in *. now rewrite (IH modules2).
Qed.

Lemma AddModule_step m modules c :
  AddModule (m :: modules) c = bind (AddModule [m]) (fun _ => AddModule modules) c.
Proof. apply (AddModule_app [m]). Qed.

(** C7. [AddModule(values...)] takes its arguments in order: each one
    before the first error value is appended to the modules of the
    container, in the order given; at the first error value it panics with
    that very value and adds nothing further.  Without an error value
    among the arguments all of them are appended and the call returns. *)
Theorem AddModule_panics_at_first_error modules c :
  AddModule modules c =
  ({| Container := Container c ++ beforeFirstError modules; di := di c |},
   match firstError modules with
   | Some e => Panic (PValue e)
   | None => Ret tt
   end).
Proof.
  revert c. induction modules as [|m rest IH]; intros c; simpl.
  - unfold ret. rewrite app_nil_r. now destruct c.
  - destruct (isErrorValue m) as [e|] eqn:He.
    + unfold panic. rewrite app_nil_r. now destruct c.
    + rewrite IH. unfold Container_AddModule; simpl.
      now rewrite <- app_assoc.
Qed.

Lemma beforeFirstError_all modules :
  firstError modules = None -> beforeFirstError modules = modules.
Proof.
  induction modules as [|m rest IH]; simpl; [reflexivity|].
  destruct (isErrorValue m); [discriminate|]. intros H. now rewrite IH.
Qed.

Lemma rangeOutVs_spec outVs : forall filteredOuts c,
  rangeOutVs outVs filteredOuts c =
  bind (AddModule (specialOuts outVs))
       (fun _ => ret (filteredOuts ++ List.filter (fun v => negb (isCleanup (rvType v))) outVs))
       c.
Proof.
  induction outVs as [|v rest IH]; intros acc c.
  - simpl. unfold bind, ret; simpl. now rewrite app_nil_r.
  - unfold specialOuts, isSpecial in *. simpl.
    destruct (isCleanup (rvType v)) eqn:Hc; simpl.
    + destruct (isErrorValue (rvInterface v)) as [e|]; [reflexivity|].
      unfold bind at 1, ret at 1. rewrite IH. reflexivity.
    + destruct (isModule (rvType v)) eqn:Hm; simpl.
      * destruct (isErrorValue (rvInterface v)) as [e|]; [reflexivity|].
        unfold bind at 1, ret at 1. rewrite IH, <- app_assoc. reflexivity.
      * unfold bind at 1, ret at 1. rewrite IH, <- app_assoc. reflexivity.
Qed.

Lemma scanOuts_spec outs : forall s acc,
  scanOuts outs s acc =
  (s || existsb isSpecial outs, acc ++ List.filter (fun t => negb (isCleanup t)) outs).
Proof.
  induction outs as [|t rest IH]; intros s acc; simpl.
  - now rewrite orb_false_r, app_nil_r.
  - unfold isSpecial at 1. destruct (isCleanup t); simpl.
    + rewrite IH. now rewrite orb_true_r.
    + rewrite IH, <- app_assoc. f_equal.
      destruct (isModule t), s; reflexivity.
Qed.

Lemma scanIns_spec ins : forall s acc,
  scanIns ins s acc = (s || existsb isModule ins, acc ++ ins).
Proof.
  induction ins as [|t rest IH]; intros s acc; simpl.
  - now rewrite orb_false_r, app_nil_r.
  - rewrite IH, <- app_assoc. f_equal.
    destruct (isModule t), s; reflexivity.
Qed.

Lemma shouldMakeFunc_spec (ftype : rtype) :
  shouldMakeFunc ftype =
  existsb isSpecial (Outs ftype) || existsb isModule (Ins ftype).
Proof.
  unfold shouldMakeFunc. now rewrite scanOuts_spec, scanIns_spec.
Qed.

Lemma wrapped_type ctor :
  ftypeOf (wrapped ctor) =
  FuncOf (Ins (ftypeOf ctor))
         (List.filter (fun t => negb (isCleanup t)) (Outs (ftypeOf ctor)))
         (IsVariadic (ftypeOf ctor)).
Proof.
  unfold wrapped. rewrite scanOuts_spec, scanIns_spec. reflexivity.
Qed.

Lemma wrapped_body ctor args c :
  fbody (wrapped ctor) args c = interceptor ctor args c.
Proof.
  unfold wrapped. rewrite scanOuts_spec, scanIns_spec. reflexivity.
Qed.

Lemma zip_interfaces (ts : list rtype) : forall (args : list iface),
  length args = length ts ->
  map rvInterface (zip_with Build_reflectValue ts args) = args.
Proof.
  induction ts as [|t ts IH]; intros [|a args] Hlen; simpl in *;
    try reflexivity; try discriminate.
  rewrite IH by lia. reflexivity.
Qed.

Lemma stubArgs_exact (fnType : rtype) (args : list iface) c :
  length args = NumIn fnType ->
  stubArgs fnType args c = (c, Ret (zip_with Build_reflectValue (Ins fnType) args)).
Proof.
  intros Hlen. unfold stubArgs. rewrite Hlen, Nat.ltb_irrefl. reflexivity.
Qed.

Lemma stubArgs_returns (fnType : rtype) (args : list iface) c c' argVs :
  stubArgs fnType args c = (c', Ret argVs) ->
  length args = NumIn fnType /\ c' = c /\
  argVs = zip_with Build_reflectValue (Ins fnType) args.
Proof.
  unfold stubArgs.
  destruct (Nat.ltb_spec (length args) (NumIn fnType)); [discriminate|].
  destruct (Nat.ltb_spec (NumIn fnType) (length args)); [discriminate|].
  intros [= <- <-]. repeat split. lia.
Qed.

Lemma Call_plain ctor (argVs : list reflectValue) :
  IsVariadic (ftypeOf ctor) = false ->
  length argVs = NumIn (ftypeOf ctor) ->
  Call ctor argVs = callResults ctor (map rvInterface argVs).
Proof.
  intros Hv Hlen. unfold Call. rewrite Hv, Hlen, Nat.ltb_irrefl. reflexivity.
Qed.

Lemma after_Call_spec (r : C D * outcome (list reflectValue)) :
  match r with
  | (c1, Ret outVs) =>
      bind (rangeOutVs outVs [])
           (fun filteredOuts => ret (map rvInterface filteredOuts)) c1
  | (c1, Panic p) => (c1, Panic p)
  end =
  match r with
  | (c1, Ret outVs) =>
      bind (AddModule (specialOuts outVs)) (fun _ => ret (nonCleanupOuts outVs)) c1
  | (c1, Panic p) => (c1, Panic p)
  end.
Proof.
  destruct r as [c1 [outVs|p]]; [|reflexivity].
  unfold bind at 1. rewrite rangeOutVs_spec. unfold bind.
  destruct (AddModule (specialOuts outVs) c1) as [c2 [[]|p]]; reflexivity.
Qed.

Lemma interceptor_spec ctor args c :
  IsVariadic (ftypeOf ctor) = false ->
  length args = NumIn (ftypeOf ctor) ->
  interceptor ctor args c =
  bind (callResults ctor args)
       (fun outVs => bind (AddModule (specialOuts outVs))
                          (fun _ => ret (nonCleanupOuts outVs))) c.
Proof.
  intros Hv Hlen. unfold interceptor, bind at 1.
  rewrite stubArgs_exact by assumption.
  rewrite Call_plain
    by (try assumption; unfold NumIn in *; rewrite length_zip_with; lia).
  rewrite zip_interfaces by exact Hlen.
  unfold bind at 1 3. apply after_Call_spec.
Qed.

(** C1, as the code has it. For a constructor of function kind that is not
    variadic and has a cleanup callback or a module among its outputs,
    [provide] registers the wrapped constructor, whose type keeps the
    inputs and every output that is not a cleanup callback.  When invoked
    with one argument for each input, the wrapped constructor calls the
    original constructor on the same arguments, passes every cleanup
    callback and every module among the results to [AddModule], in result
    order, and returns every result that is not a cleanup callback, so the
    modules as well as the ordinary results. *)
Theorem wrapped_registers_and_forwards `{DiContainer D} ctor :
  Kind (ftypeOf ctor) = Func ->
  existsb isSpecial (Outs (ftypeOf ctor)) = true ->
  IsVariadic (ftypeOf ctor) = false ->
  (forall c, provide (Some ctor) c = provideOrPanic (wrapped ctor) c) /\
  ftypeOf (wrapped ctor) =
    FuncOf (Ins (ftypeOf ctor))
           (List.filter (fun t => negb (isCleanup t)) (Outs (ftypeOf ctor)))
           false /\
  (forall args c,
      length args = NumIn (ftypeOf ctor) ->
      fbody (wrapped ctor) args c =
      bind (fbody ctor args)
           (fun outs =>
              let outVs := zip_with Build_reflectValue (Outs (ftypeOf ctor)) outs in
              bind (AddModule (specialOuts outVs))
                   (fun _ => ret (nonCleanupOuts outVs))) c).
Proof.
  intros HK Hsp Hv. repeat split.
  - intros c. unfold provide.
    rewrite bool_decide_eq_true_2 by assumption. simpl.
    rewrite shouldMakeFunc_spec, Hsp. reflexivity.
  - rewrite wrapped_type, Hv. reflexivity.
  - intros args c Hlen. rewrite wrapped_body, interceptor_spec by assumption.
    unfold callResults, bind, ret.
    destruct (fbody ctor args c) as [c1 [outs|p]]; reflexivity.
Qed.

(** C2, as the code has it. For a constructor of function kind with no
    cleanup callback and no module among its outputs and no module among
    its inputs, [provide] hands the constructor itself to the resolver, so
    that a later [Invoke] runs on the very state that the resolver alone
    would have reached. *)
Theorem provide_passes_plain_constructor `{DiContainer D} ctor :
  Kind (ftypeOf ctor) = Func ->
  existsb isSpecial (Outs (ftypeOf ctor)) = false ->
  existsb isModule (Ins (ftypeOf ctor)) = false ->
  registeredUnchanged ctor /\
  (forall target c,
      bind (provide (Some ctor)) (fun _ => Invoke target) c =
      bind (provideOrPanic ctor) (fun _ => Invoke target) c).
Proof.
  intros HK Ho Hi.
  assert (Hp : registeredUnchanged ctor).
  { intros c. unfold provide.
    rewrite bool_decide_eq_true_2 by assumption. simpl.
    rewrite shouldMakeFunc_spec, Ho, Hi. reflexivity. }
  split; [exact Hp|].
  intros target c. unfold bind. now rewrite (Hp c).
Qed.

(** [Invoke] never hands an error back: it returns nothing, or panics with
    a new error made from the message of the resolver's error. *)
Lemma Invoke_outcome `{DiContainer D} (target : funcValue D) c :
  Invoke target c =
  match di_Invoke target c with
  | (c', Some err) => (c', Panic (PError (plainError (ReplaceAllString_empty (Error err)))))
  | (c', None) => (c', Ret tt)
  end.
Proof. reflexivity. Qed.

End ContainerFacts.

Section ContainerScenarios.
Import Go Core Scenarios.

(** C1, as the specification words it, fails: the wrapped [newM1] forwards
    the module it has registered. *)
Lemma wrapped_newM1_forwards_module :
  existsb isSpecial (Outs (ftypeOf newM1)) = true /\ ~ forwardsOrdinaryOnly newM1.
Proof.
  split; [reflexivity|]. intros Hclaim.
  specialize (Hclaim [] emptyC
                ({| Container := [Some vM1]; di := [] |}) [Some vM1] vM1
                eq_refl (or_introl eq_refl)).
  discriminate Hclaim.
Qed.

Lemma wrapped_registers_and_forwards_witness :
  Kind (ftypeOf mockConstructor) = Func /\
  existsb isSpecial (Outs (ftypeOf mockConstructor)) = true /\
  IsVariadic (ftypeOf mockConstructor) = false /\
  length [Some vB] = NumIn (ftypeOf mockConstructor) /\
  fbody (wrapped mockConstructor) [Some vB] emptyC =
  ({| Container := [Some vCleanup]; di := [] |}, Ret [Some vA; None]).
Proof.
  split; [reflexivity|]. split; [reflexivity|]. split; [reflexivity|].
  split; [reflexivity|].
  destruct (wrapped_registers_and_forwards (H := recordingDi None) mockConstructor
              eq_refl eq_refl eq_refl) as (_ & _ & Hbody).
  rewrite (Hbody [Some vB] emptyC eq_refl). reflexivity.
Defined.

(** C2, as the specification words it, fails: [useM1] has no cleanup
    callback and no module among its outputs, yet the resolver receives the
    stub made for it and not [useM1]. *)
Lemma provide_wraps_useM1 :
  existsb isSpecial (Outs (ftypeOf useM1)) = false /\
  ~ registeredUnchanged (H := recordingDi None) useM1.
Proof.
  split; [reflexivity|]. intros Hclaim. specialize (Hclaim emptyC). discriminate Hclaim.
Qed.

Lemma provide_passes_plain_constructor_witness :
  Kind (ftypeOf plainConstructor) = Func /\
  existsb isSpecial (Outs (ftypeOf plainConstructor)) = false /\
  existsb isModule (Ins (ftypeOf plainConstructor)) = false /\
  provide (H := recordingDi None) (Some plainConstructor) emptyC =
  ({| Container := []; di := ["plainConstructor"] |}, Ret tt).
Proof.
  split; [reflexivity|]. split; [reflexivity|]. split; [reflexivity|].
  destruct (provide_passes_plain_constructor (H := recordingDi None) plainConstructor
              eq_refl eq_refl eq_refl) as [Hreg _].
  rewrite (Hreg emptyC). reflexivity.
Defined.

(** C5. The target function returns the error [boom]; [Invoke] returns
    nothing to its caller and panics with a new error that has the message
    of [boom] but not what it wraps. *)
Theorem Invoke_panics_with_new_error :
  Invoke (H := recordingDi (Some boom)) failingTarget emptyC =
    (emptyC, Panic (PError (plainError "boom: cause"))) /\
  plainError "boom: cause" <> boom /\
  Unwrap (plainError "boom: cause") = None /\
  Unwrap boom = Some (plainError "cause").
Proof.
  repeat split. discriminate.
Qed.

(** C6. When the stub stands in a [could not build arguments] frame of the
    resolver's message, the panic of [Invoke] still names it. *)
Theorem Invoke_leaks_stub_in_transitive_failure :
  exists e,
    Invoke (H := recordingDi (Some (plainError missingTransitive))) plainConstructor emptyC =
      (emptyC, Panic (PError e)) /\
    Contains (Error e) stubName = true /\
    Contains (Error e) "missing type: core.c" = true.
Proof.
  eexists. split; [reflexivity|]. split; vm_compute; reflexivity.
Qed.

(** The case of the test: the stub stands in a [missing dependencies]
    frame, which [Invoke] removes, and the missing type stays named. *)
Lemma Invoke_strips_stub_in_direct_failure :
  exists e,
    Invoke (H := recordingDi (Some (plainError missingDirect))) plainConstructor emptyC =
      (emptyC, Panic (PError e)) /\
    Contains (Error e) stubName = false /\
    Contains (Error e) "missing type: core.b" = true.
Proof.
  eexists. split; [reflexivity|]. split; vm_compute; reflexivity.
Qed.

End ContainerScenarios.

(** ** The factory *)

Section FactoryFacts.
Import Go Di.
Context {W T : Type}.
Implicit Types (f : Factory W T) (w : W) (name : string).

Lemma Make_cached f name w p :
  cache f !! name = Some p -> Make f name w = (f, w, Ret (inl (Conn p))).
Proof. intros Hc. unfold Make. now rewrite Hc. Qed.

Lemma Make_uncached f name w :
  cache f !! name = None ->
  exists f',
    Make f name w = (f', (builder f name w).1, made (builder f name w).2) /\
    builder f' = builder f /\
    built f' = built f ++ [name] /\
    cache f' = match (builder f name w).2 with
               | Ret (inl p) => <[name := p]> (cache f)
               | _ => cache f
               end.
Proof.
  intros Hc. unfold Make. rewrite Hc.
  destruct (builder f name w) as [w' [[p|err]|pv]]; simpl; eexists; repeat split.
Qed.

Lemma Make_success_cached f name w f1 w1 conn :
  Make f name w = (f1, w1, Ret (inl conn)) ->
  exists p, cache f1 !! name = Some p /\ Conn p = conn.
Proof.
  unfold Make. destruct (cache f !! name) as [p|] eqn:Hc.
  - intros [= <- <- <-]. eauto.
  - destruct (builder f name w) as [w' [[p|err]|pv]]; intros [= <- <- <-].
    exists p. simpl. now rewrite lookup_insert_eq.
Qed.

Lemma Make_keeps_entry f other w f' w' r name p :
  cache f !! name = Some p ->
  Make f other w = (f', w', r) ->
  cache f' !! name = Some p /\ builtFor f' name = builtFor f name.
Proof.
  intros Hn HM. destruct (cache f !! other) as [q|] eqn:Ho.
  - rewrite (Make_cached _ _ _ _ Ho) in HM. injection HM as <- <- <-. auto.
  - destruct (Make_uncached f other w Ho) as (f2 & HM2 & _ & Hb & Hc).
    rewrite HM2 in HM. injection HM as <- <- <-.
    assert (Hne : other <> name) by (intros ->; congruence).
    split.
    + rewrite Hc. destruct (builder f other w).2 as [[q|e]|pv]; try assumption.
      now rewrite lookup_insert_ne.
    + unfold builtFor. rewrite Hb, count_occ_app. simpl.
      destruct (string_dec other name); [contradiction|lia].
Qed.

Lemma later_keeps_entry (a b : Factory W T * W) name p :
  later a b ->
  cache a.1 !! name = Some p ->
  cache b.1 !! name = Some p /\ builtFor b.1 name = builtFor a.1 name.
Proof.
  induction 1 as [fw | f w other f' w' r fw'' HM _ IH | f w w' fw'' _ IH];
    simpl in *; intros Hc.
  - auto.
  - destruct (Make_keeps_entry _ _ _ _ _ _ _ _ Hc HM) as [Hc' Hb'].
    destruct (IH Hc') as [Hc'' Hb'']. split; [assumption | congruence].
  - auto.
Qed.

(** C3. After a call [Make(n)] that returned an instance, whatever calls of
    [Make] and changes of the surroundings follow, [Make(n)] returns that
    same instance and leaves factory and surroundings as they are, the
    builder having been called for [n] no more often than before.  When
    the builder fails for a name not cached, nothing is cached, and the
    next [Make(n)] calls the builder once more and returns what it
    returns. *)
Theorem Make_caches_success_only f name w :
  (forall f1 w1 conn,
      Make f name w = (f1, w1, Ret (inl conn)) ->
      forall f2 w2,
        later (f1, w1) (f2, w2) ->
        Make f2 name w2 = (f2, w2, Ret (inl conn)) /\
        builtFor f2 name = builtFor f1 name) /\
  (forall w1 err,
      cache f !! name = None ->
      builder f name w = (w1, Ret (inr err)) ->
      exists f1,
        Make f name w = (f1, w1, Ret (inr err)) /\
        cache f1 = cache f /\
        builtFor f1 name = S (builtFor f name) /\
        forall w', exists f2,
          Make f1 name w' = (f2, (builder f name w').1, made (builder f name w').2) /\
          builtFor f2 name = S (S (builtFor f name))).
Proof.
  split.
  - intros f1 w1 conn HM f2 w2 Hl.
    destruct (Make_success_cached _ _ _ _ _ _ HM) as (p & Hp & <-).
    destruct (later_keeps_entry _ _ name p Hl Hp) as [Hp2 Hb2]; simpl in *.
    split; [now apply Make_cached | assumption].
  - intros w1 err Hc Hb.
    destruct (Make_uncached f name w Hc) as (f1 & HM & Hbu & Hbt & Hca).
    rewrite Hb in HM, Hca; simpl in *.
    assert (Hcount : builtFor f1 name = S (builtFor f name)).
    { unfold builtFor. rewrite Hbt, count_occ_app. simpl.
      destruct (string_dec name name); [lia|contradiction]. }
    exists f1. repeat split; try assumption.
    intros w'.
    assert (Hc1 : cache f1 !! name = None) by now rewrite Hca.
    destruct (Make_uncached f1 name w' Hc1) as (f2 & HM2 & _ & Hbt2 & _).
    exists f2. rewrite <- Hbu. split; [assumption|].
    unfold builtFor in *. rewrite Hbt2, count_occ_app, Hcount. simpl.
    destruct (string_dec name name); [lia|contradiction].
Qed.

End FactoryFacts.

(** ** The providers of [otkafka] *)

Section OtkafkaFacts.
Import Go Di Otkafka.
Context `{KafkaDecls}.

Lemma writerBuilder_invalid (p : factoryIn) name (w : World) cause :
  Unmarshal_WriterConfig (Conf w) (writerPath name) = inr cause ->
  writerBuilder p name w =
  (w, Ret (inr (wrapError ("kafka writer configuration " ++ name ++ " not valid: "
                           ++ Error cause) cause))).
Proof. intros Hu. unfold writerBuilder. now rewrite Hu. Qed.

Lemma storeAccessor_writer_invalid (store : gmap string Raw) path :
  writerPathInvalid store path ->
  exists cause,
    Unmarshal_WriterConfig (storeAccessor store) path = inr cause /\
    (cause = absent path \/ cause = malformed path).
Proof.
  intros Hinv. unfold storeAccessor; simpl.
  destruct (store !! path) as [[c|c|d|s]|] eqn:Hs; eauto.
  exfalso. exact (Hinv c Hs).
Qed.

(** C9. When the path [kafka.writer.<name>] is absent from the store behind
    the accessor, or holds no writer configuration, the builder of the
    writer factory returns an error that names the configuration and wraps
    the cause, and [Make] on a fresh factory returns that error, no
    connection, and caches nothing.  When the path holds a writer
    configuration, [Make] on that same factory returns the writer made
    from it. *)
Theorem writer_Make_fails_on_invalid_config (p : factoryIn) name
    (store : gmap string Raw) (log : list LogLine) :
  writerPathInvalid store (writerPath name) ->
  let w := {| Conf := storeAccessor store; Logger := log |} in
  exists cause f1,
    (cause = absent (writerPath name) \/
     cause = malformed (writerPath name)) /\
    let invalid :=
      wrapError ("kafka writer configuration " ++ name ++ " not valid: "
                 ++ Error cause) cause in
    writerBuilder p name w = (w, Ret (inr invalid)) /\
    Make (provideWriterFactory p).1 name w = (f1, w, Ret (inr invalid)) /\
    cache f1 = ∅ /\
    forall c, exists f2,
      let w' := {| Conf := storeAccessor (<[writerPath name := RawWriter c]> store);
                   Logger := log |} in
      let writer := setWriterFields (Tracer_ p) (fromWriterConfig c) in
      let writer := match WriterInterceptor p with
                    | Some intercept => intercept name writer
                    | None => writer
                    end in
      Make f1 name w' = (f2, w', Ret (inl writer)) /\
      cache f2 !! name = Some {| Conn := writer; Closer := writer |}.
Proof.
  intros Hinv w.
  destruct (storeAccessor_writer_invalid store _ Hinv) as (cause & Hu & Hcause).
  pose proof (writerBuilder_invalid p name w cause Hu) as Hb.
  set (f0 := (provideWriterFactory p).1).
  assert (Hc0 : cache f0 !! name = None) by apply lookup_empty.
  destruct (Make_uncached f0 name w Hc0) as (f1 & HM & Hbu & _ & Hca).
  change (builder f0) with (writerBuilder p) in *.
  rewrite Hb in HM, Hca; simpl in HM, Hca.
  exists cause, f1. split; [exact Hcause|]. cbv zeta.
  split; [exact Hb|]. split; [exact HM|]. split; [exact Hca|].
  intros c.
  assert (Hc1 : cache f1 !! name = None) by (rewrite Hca; apply lookup_empty).
  destruct (Make_uncached f1 name
              {| Conf := storeAccessor (<[writerPath name := RawWriter c]> store);
                 Logger := log |} Hc1) as (f2 & HM2 & _ & _ & Hca2).
  rewrite Hbu in HM2, Hca2.
  unfold writerBuilder in HM2, Hca2; simpl in HM2, Hca2.
  rewrite lookup_insert_eq in HM2, Hca2; simpl in HM2, Hca2.
  exists f2. split; [exact HM2|].
  rewrite Hca2. apply lookup_insert_eq.
Qed.

Lemma makeDefault_fresh {T} (b : Builder World T) (w w' : World) r :
  b "default" w = (w', r) ->
  exists f',
    makeDefault (NewFactory b) w =
    (f',
     match r with Ret (inr e) => Warn e w' | _ => w' end,
     match r with
     | Ret (inl p) => Ret (Some (Conn p))
     | Ret (inr _) => Ret None
     | Panic pv => Panic pv
     end).
Proof.
  intros Hb. unfold makeDefault, Make, NewFactory. cbn [cache builder built].
  rewrite lookup_empty, Hb. destruct r as [[q|e]|pv]; eexists; reflexivity.
Qed.



Lemma writerBuilder_returns (p : factoryIn) name (w : World) :
  exists r, writerBuilder p name w = (w, Ret r) /\
    forall cause, Unmarshal_WriterConfig (Conf w) (writerPath name) = inr cause ->
      r = inr (wrapError ("kafka writer configuration " ++ name ++ " not valid: "
                          ++ Error cause) cause).
Proof.
  unfold writerBuilder.
  destruct (Unmarshal_WriterConfig (Conf w) (writerPath name)) as [c|cause];
    eexists; split; try reflexivity; intros cause' [=]; congruence.
Qed.

Lemma provideKafkaFactory_after_reader (p : factoryIn) (w w1 : World) rf dr :
  makeDefault (NewFactory (readerBuilder p)) w = (rf, w1, Ret dr) ->
  exists out w2,
    provideKafkaFactory p w = (w2, Ret (out, WriterFactory_Close, ReaderFactory_Close, None)) /\
    Reader out = dr /\
    (forall cause,
        Unmarshal_WriterConfig (Conf w1) (writerPath "default") = inr cause ->
        Writer out = None /\
        w2 = Warn (wrapError ("kafka writer configuration " ++ "default" ++ " not valid: "
                              ++ Error cause) cause) w1).
Proof.
  intros HmR.
  unfold provideKafkaFactory, provideReaderFactory, provideWriterFactory.
  cbv beta iota zeta. rewrite HmR.
  destruct (writerBuilder_returns p "default" w1) as (r & Hwb & Hr).
  destruct (makeDefault_fresh _ _ _ _ Hwb) as [wf HmW]. rewrite HmW.
  destruct (bool_decide (ReaderStats_ p <> None) || bool_decide (WriterStats_ p <> None));
    destruct r as [q|e];
    eexists _, _; (split; [reflexivity|]); (split; [reflexivity|]);
    intros cause Hc; specialize (Hr cause Hc); try discriminate Hr;
    injection Hr as ->; split; reflexivity.
Qed.



(** When the configuration of the default reader and of the default writer
    are both invalid, [provideKafkaFactory] logs the two failures as
    warnings, returns nil for reader and writer, and a nil error. *)
Lemma provideKafkaFactory_swallows_failures (p : factoryIn) (w : World) er ew :
  Unmarshal_ReaderConfig (Conf w) (readerPath "default") = inr er ->
  Unmarshal_WriterConfig (Conf w) (writerPath "default") = inr ew ->
  exists out,
    provideKafkaFactory p w =
    (Warn (wrapError ("kafka writer configuration " ++ "default" ++ " not valid: "
                      ++ Error ew) ew)
       (Warn (wrapError ("kafka reader configuration " ++ "default" ++ " not valid: "
                         ++ Error er) er) w),
     Ret (out, WriterFactory_Close, ReaderFactory_Close, None)) /\
    Reader out = None /\ Writer out = None.
Proof.
  intros Hr Hw.
  assert (Hb : readerBuilder p "default" w =
               (w, Ret (inr (wrapError ("kafka reader configuration " ++ "default"
                                        ++ " not valid: " ++ Error er) er)))).
  { unfold readerBuilder. now rewrite Hr. }
  destruct (makeDefault_fresh _ _ _ _ Hb) as [rf HmR].
  destruct (provideKafkaFactory_after_reader p w _ rf _ HmR) as (out & w2 & Hp & Hdr & Hdw).
  destruct (Hdw ew Hw) as [Hw0 ->].
  exists out. repeat split; assumption.
Qed.

End OtkafkaFacts.

Section OtkafkaScenarios.
Import Go Di Otkafka Scenarios.
#[local] Existing Instance brokersAndTopic.

Lemma Make_caches_success_only_witness :
  let f0 := (provideWriterFactory bareIn).1 in
  exists f1 f1',
    (Make f0 "default" (worldOf writerConfigured) =
       (f1, worldOf writerConfigured, Ret (inl localBrokers)) /\
     later (f1, worldOf writerConfigured) (f1, worldOf noConfig) /\
     Make f1 "default" (worldOf noConfig) = (f1, worldOf noConfig, Ret (inl localBrokers)) /\
     builtFor f1 "default" = 1) /\
    (cache f0 !! "default" = None /\
     Make f0 "default" (worldOf noConfig) =
       (f1', worldOf noConfig,
        Ret (inr (wrapError "kafka writer configuration default not valid: kafka.writer.default is absent"
                            (absent "kafka.writer.default")))) /\
     cache f1' = cache f0 /\
     exists f2,
       Make f1' "default" (worldOf writerConfigured) =
         (f2, worldOf writerConfigured, Ret (inl localBrokers)) /\
       builtFor f2 "default" = 2).
Proof.
  intros f0.
  pose (f1 := (Make f0 "default" (worldOf writerConfigured)).1.1).
  assert (HM0 : Make f0 "default" (worldOf writerConfigured) =
                (f1, worldOf writerConfigured, Ret (inl localBrokers))) by reflexivity.
  assert (Hl : later (f1, worldOf writerConfigured) (f1, worldOf noConfig))
    by apply (later_world _ _ (worldOf noConfig)), later_refl.
  destruct (Make_caches_success_only f0 "default" (worldOf writerConfigured)) as [Hok _].
  destruct (Hok f1 _ _ HM0 f1 _ Hl) as [HM1 Hb1].
  destruct (Make_caches_success_only f0 "default" (worldOf noConfig)) as [_ Hfail].
  destruct (Hfail _ _ (lookup_empty _) eq_refl) as (f1' & HM & Hc & _ & Hnext).
  destruct (Hnext (worldOf writerConfigured)) as (f2 & HM2 & Hb2).
  exists f1, f1'. split.
  - split; [exact HM0|]. split; [exact Hl|]. split; [exact HM1|]. reflexivity.
  - split; [apply lookup_empty|]. split; [exact HM|]. split; [exact Hc|].
    exists f2. split; [exact HM2 | exact Hb2].
Defined.

Lemma writer_Make_fails_on_invalid_config_witness :
  writerPathInvalid noConfig (writerPath "default") /\
  exists f1 f2,
    Make (provideWriterFactory bareIn).1 "default" (worldOf noConfig) =
      (f1, worldOf noConfig,
       Ret (inr (wrapError "kafka writer configuration default not valid: kafka.writer.default is absent"
                           (absent "kafka.writer.default")))) /\
    Make f1 "default" (worldOf writerConfigured) =
      (f2, worldOf writerConfigured, Ret (inl localBrokers)).
Proof.
  assert (Hinv : writerPathInvalid noConfig (writerPath "default")).
  { intros c. unfold noConfig. rewrite lookup_empty. discriminate. }
  split; [exact Hinv|].
  destruct (writer_Make_fails_on_invalid_config bareIn "default" noConfig [] Hinv)
    as (cause & f1 & Hcause & _ & HM & _ & Hnext).
  destruct (Hnext localBrokers) as (f2 & HM2 & _).
  exists f1, f2. split; [|exact HM2].
  destruct Hcause as [-> | ->]; [exact HM|].
  exfalso. clear HM2 Hnext. vm_compute in HM. discriminate HM.
Defined.

(** C10. With a writer interceptor, no reader interceptor and a valid
    configuration of the default reader, [provideKafkaFactory] does not
    return: the reader builder calls the nil reader interceptor.  Without
    the writer interceptor it returns a nil error on the same
    configuration. *)
Theorem provideKafkaFactory_panics_on_nil_reader_interceptor :
  provideKafkaFactory writerInterceptorOnly (worldOf readerConfigured) =
    (worldOf readerConfigured, Panic nilDereference) /\
  exists out,
    provideKafkaFactory bareIn (worldOf readerConfigured) =
      (Warn (wrapError "kafka writer configuration default not valid: kafka.writer.default is absent"
                       (absent "kafka.writer.default"))
            (worldOf readerConfigured),
       Ret (out, WriterFactory_Close, ReaderFactory_Close, None)) /\
    Reader out = Some localBrokers /\ Writer out = None.
Proof.
  split; [reflexivity|]. eexists. split; [reflexivity|]. split; reflexivity.
Qed.

End OtkafkaScenarios.

(** ** The orchestrator *)

Section ServeFacts.
Import Go Events Orchestrator.
Context {W : Type}.
Implicit Types (d : SyncDispatcher W string) (ms : list (Module W)) (w : W).

Lemma appendTrace_noTrace (t : Trace) : appendTrace noTrace t = t.
Proof. now destruct t. Qed.

Lemma Serve_enabled disabled d ms : forall w,
  Serve disabled d ms w = Serve disabled d (enabled disabled ms) w.
Proof.
  induction ms as [|m rest IH]; intros w; simpl; [reflexivity|].
  unfold serveModule at 1.
  destruct (disabled (disableKey m)) eqn:Hd; simpl.
  - rewrite <- IH. destruct (Serve disabled d rest w) as [[w2 t2] e2].
    now rewrite appendTrace_noTrace.
  - unfold serveModule. rewrite Hd.
    destruct (Dispatch d ModuleStart (identity m) w) as [[w1 c1] r1].
    destruct (run m w1) as [w2 err].
    destruct (Dispatch d ModuleShutdown (identity m) w2) as [[w3 c2] r2].
    now rewrite IH.
Qed.

Lemma Serve_trace disabled d ms : forall w,
  started (Serve disabled d ms w).1.2 = map identity (enabled disabled ms) /\
  published (Serve disabled d ms w).1.2 =
    flat_map (fun m => [(ModuleStart, identity m); (ModuleShutdown, identity m)])
             (enabled disabled ms).
Proof.
  induction ms as [|m rest IH]; intros w; simpl; [split; reflexivity|].
  unfold serveModule.
  destruct (disabled (disableKey m)) eqn:Hd; simpl.
  - specialize (IH w). destruct (Serve disabled d rest w) as [[w2 t2] e2]. exact IH.
  - destruct (Dispatch d ModuleStart (identity m) w) as [[w1 c1] r1].
    destruct (run m w1) as [w2 err].
    destruct (Dispatch d ModuleShutdown (identity m) w2) as [[w3 c2] r2].
    specialize (IH w3). destruct (Serve disabled d rest w3) as [[w4 t4] e4].
    simpl in *. destruct IH as [-> ->]. split; reflexivity.
Qed.

Lemma Serve_allDisabled disabled d ms : forall w,
  Serve disabled d (allDisabled disabled ms) w = (w, noTrace, None).
Proof.
  induction ms as [|m rest IH]; intros w; simpl; [reflexivity|].
  destruct (disabled (disableKey m)) eqn:Hd; simpl; [|apply IH].
  unfold serveModule. rewrite Hd, IH. reflexivity.
Qed.

(** C8. [Serve] runs as if the modules disabled by configuration were not
    registered: the modules started and the [ModuleStart] and
    [ModuleShutdown] events published are those of the enabled modules, in
    registration order, and when every module is disabled nothing is run,
    no event is published, no listener is called and no error returned.
    In the scenario of the test, with the servers disabled the counting
    listeners record zero calls, where with nothing disabled they record
    four. *)
Theorem Serve_skips_disabled_modules disabled d ms w :
  Serve disabled d ms w = Serve disabled d (enabled disabled ms) w /\
  started (Serve disabled d ms w).1.2 = map identity (enabled disabled ms) /\
  published (Serve disabled d ms w).1.2 =
    flat_map (fun m => [(ModuleStart, identity m); (ModuleShutdown, identity m)])
             (enabled disabled ms) /\
  Serve disabled d (allDisabled disabled ms) w = (w, noTrace, None) /\
  Serve Scenarios.serversDisabled Scenarios.countingDispatcher Scenarios.httpAndGrpc 0
    = (0, noTrace, None) /\
  (Serve Scenarios.nothingDisabled Scenarios.countingDispatcher Scenarios.httpAndGrpc 0).1.1
    = 4.
Proof.
  split; [apply Serve_enabled|].
  split; [apply Serve_trace|].
  split; [apply Serve_trace|].
  split; [apply Serve_allDisabled|].
  split; reflexivity.
Qed.

End ServeFacts.

(** * Further properties of the code *)

(** ** The dispatcher, one subscription at a time *)

Section DispatcherSteps.
Import Go Events.
Context {W Ev : Type}.
Implicit Types (d : SyncDispatcher W Ev) (l : Listener W Ev) (ls : list (Listener W Ev)).

Lemma rangeListeners_app ls1 : forall ls2 (event : Ev) (w : W),
  rangeListeners (ls1 ++ ls2) event w =
  match rangeListeners ls1 event w with
  | (w1, called, None) =>
      match rangeListeners ls2 event w1 with
      | (w2, called2, r) => (w2, called ++ called2, r)
      end
  | failed => failed
  end.
Proof.
  induction ls1 as [|l ls1 IH]; intros ls2 event w; simpl.
  - now destruct (rangeListeners ls2 event w) as [[w2 c2] r].
  - destruct (Process l event w) as [w1 [err|]]; [reflexivity|].
    rewrite IH. destruct (rangeListeners ls1 event w1) as [[w2 c1] [err|]]; [reflexivity|].
    now destruct (rangeListeners ls2 event w2) as [[w3 c2] r].
Qed.

(** X1. Subscribing a listener changes nothing for any other topic:
    [Dispatch] on a topic the listener does not listen to gives what it
    gave before the subscription. *)
Theorem Subscribe_leaves_other_topics d l topic (event : Ev) (w : W) :
  Listen l <> topic ->
  Dispatch (Subscribe d l) topic event w = Dispatch d topic event w.
Proof.
  intros Hne. unfold Dispatch, Subscribe; simpl.
  now rewrite lookup_insert_ne.
Qed.

(** X2. Whatever the dispatcher holds already, a newly subscribed listener
    comes last on its topic: [Dispatch] first does what it did before, and
    only if that returned nil does it call the new listener, whose result
    it then returns.  The same listener subscribed again is called
    again. *)
Theorem Dispatch_after_Subscribe d l (event : Ev) (w : W) :
  Dispatch (Subscribe d l) (Listen l) event w =
  match Dispatch d (Listen l) event w with
  | (w1, called, None) =>
      match Process l event w1 with
      | (w2, r) => (w2, called ++ [lid l], r)
      end
  | failed => failed
  end.
Proof.
  rewrite !Dispatch_listenersOf, listenersOf_Subscribe, String.eqb_refl.
  rewrite rangeListeners_app.
  destruct (rangeListeners (listenersOf d (Listen l)) event w) as [[w1 called] [err|]];
    [reflexivity|].
  simpl. destruct (Process l event w1) as [w2 [err|]]; reflexivity.
Qed.

End DispatcherSteps.

(** ** The container: registration, the wrapped constructor, [AddModuleFunc] *)

Section ContainerMore.
Import Go Core.
Context {D : Type}.
Implicit Types (c : C D) (modules : list iface) (ctor : funcValue D).

(** X4. [Provide] takes the constructors in order and stops at the first
    one on which [provide] panics: providing two lists one after the other
    is providing their concatenation, and what follows a panic is never
    handed to the resolver. *)
Theorem Provide_in_order `{DiContainer D} (deps1 deps2 : list (option (funcValue D))) c :
  Provide (deps1 ++ deps2) c =
  match Provide deps1 c with
  | (c1, Ret _) => Provide deps2 c1
  | (c1, Panic p) => (c1, Panic p)
  end.
Proof.
  revert c. induction deps1 as [|dep rest IH]; intros c; simpl; [reflexivity|].
  unfold bind. destruct (provide dep c) as [c1 [[]|p]]; [apply IH | reflexivity].
Qed.

Lemma AddModule_keeps_resolver modules : forall c,
  di (AddModule modules c).1 = di c /\
  exists added, Container (AddModule modules c).1 = Container c ++ added.
Proof.
  induction modules as [|m rest IH]; intros c; simpl.
  - split; [reflexivity|]. exists []. now rewrite app_nil_r.
  - destruct (isErrorValue m) as [e|]; simpl.
    + split; [reflexivity|]. exists []. now rewrite app_nil_r.
    + destruct (IH (Container_AddModule m c)) as [Hd [added Ha]].
      split; [exact Hd|]. exists (m :: added). rewrite Ha. simpl.
      now rewrite <- app_assoc.
Qed.

Lemma filter_zip_aligned (Q : rtype -> bool) (ts : list rtype) : forall (outs : list iface),
  zip_with Build_reflectValue (List.filter Q ts)
    (map rvInterface
       (List.filter (fun v => Q (rvType v)) (zip_with Build_reflectValue ts outs))) =
  List.filter (fun v => Q (rvType v)) (zip_with Build_reflectValue ts outs).
Proof.
  induction ts as [|t ts IH]; intros [|o outs]; simpl; try reflexivity.
  - destruct (Q t); [reflexivity|]. now destruct (List.filter Q ts).
  - destruct (Q t) eqn:HQ; simpl; now rewrite IH.
Qed.

Lemma filter_zip_length (Q : rtype -> bool) (ts : list rtype) : forall (outs : list iface),
  length outs = length ts ->
  length (List.filter (fun v => Q (rvType v)) (zip_with Build_reflectValue ts outs)) =
  length (List.filter Q ts).
Proof.
  induction ts as [|t ts IH]; intros [|o outs] Hlen; simpl in *; try reflexivity;
    try discriminate.
  destruct (Q t); simpl; rewrite IH by lia; reflexivity.
Qed.

Lemma filter_zip_none (Q : rtype -> bool) (ts : list rtype) : forall (outs : list iface),
  existsb Q ts = false ->
  List.filter (fun v => Q (rvType v)) (zip_with Build_reflectValue ts outs) = [].
Proof.
  induction ts as [|t ts IH]; intros [|o outs] Hex; simpl in *; try reflexivity.
  apply orb_false_iff in Hex as [-> Hex]. now apply IH.
Qed.

Lemma filter_zip_all (Q : rtype -> bool) (ts : list rtype) : forall (outs : list iface),
  existsb Q ts = false ->
  length outs = length ts ->
  map rvInterface
    (List.filter (fun v => negb (Q (rvType v))) (zip_with Build_reflectValue ts outs)) = outs.
Proof.
  induction ts as [|t ts IH]; intros [|o outs] Hex Hlen; simpl in *; try reflexivity;
    try discriminate.
  apply orb_false_iff in Hex as [-> Hex]. simpl. rewrite IH by (assumption || lia).
  reflexivity.
Qed.

Lemma existsb_isSpecial_isCleanup (ts : list rtype) :
  existsb isSpecial ts = false -> existsb isCleanup ts = false.
Proof.
  induction ts as [|t ts IH]; simpl; [reflexivity|].
  unfold isSpecial at 1. intros H. apply orb_false_iff in H as [Ht Hts].
  apply orb_false_iff in Ht as [-> _]. now apply IH.
Qed.

(** X5. A constructor that is not variadic and is wrapped only because a
    module is among its inputs is wrapped transparently: with no cleanup
    callback and no module among its outputs, the wrapped constructor,
    called with one argument for each input, returns what the constructor
    returns, leaves the state the constructor leaves, panics when it
    panics, and registers no module. *)
Theorem wrapped_is_transparent_without_special_outputs ctor args c :
  existsb isSpecial (Outs (ftypeOf ctor)) = false ->
  IsVariadic (ftypeOf ctor) = false ->
  length args = NumIn (ftypeOf ctor) ->
  (forall c1 outs, fbody ctor args c = (c1, Ret outs) ->
                   length outs = NumOut (ftypeOf ctor)) ->
  fbody (wrapped ctor) args c = fbody ctor args c.
Proof.
  intros Hsp Hv Hargs Hlen. rewrite wrapped_body, interceptor_spec by assumption.
  unfold callResults, bind, ret.
  destruct (fbody ctor args c) as [c1 [outs|p]] eqn:Hb; [|reflexivity].
  specialize (Hlen c1 outs eq_refl).
  unfold specialOuts, nonCleanupOuts.
  rewrite (filter_zip_none isSpecial) by assumption. simpl.
  rewrite (filter_zip_all isCleanup)
    by (try apply existsb_isSpecial_isCleanup; assumption).
  reflexivity.
Qed.

Lemma interceptor_returns_arity ctor args c c2 fwd :
  interceptor ctor args c = (c2, Ret fwd) -> length args = NumIn (ftypeOf ctor).
Proof.
  unfold interceptor, bind at 1.
  destruct (stubArgs (ftypeOf ctor) args c) as [c' [argVs|p]] eqn:Hs; [|discriminate].
  intros _. now apply stubArgs_returns in Hs.
Qed.

(** X6. What the wrapped constructor returns fits the type made for it:
    when a constructor that is not variadic returns as many values as its
    type declares and the wrapped constructor returns, it returns as many
    values as the wrapped type declares, each under the declared type it
    had in the constructor.  Registration has left the resolver as the
    constructor left it and has only added to the modules. *)
Theorem wrapped_results_fit_wrapped_type ctor args c c1 outs c2 fwd :
  IsVariadic (ftypeOf ctor) = false ->
  fbody ctor args c = (c1, Ret outs) ->
  length outs = NumOut (ftypeOf ctor) ->
  fbody (wrapped ctor) args c = (c2, Ret fwd) ->
  length fwd = NumOut (ftypeOf (wrapped ctor)) /\
  zip_with Build_reflectValue (Outs (ftypeOf (wrapped ctor))) fwd =
    List.filter (fun v => negb (isCleanup (rvType v)))
                (zip_with Build_reflectValue (Outs (ftypeOf ctor)) outs) /\
  di c2 = di c1 /\
  exists added, Container c2 = Container c1 ++ added.
Proof.
  intros Hv Hb Hlen Hw. rewrite wrapped_body in Hw.
  pose proof (interceptor_returns_arity _ _ _ _ _ Hw) as Hargs.
  rewrite interceptor_spec in Hw by assumption.
  unfold callResults, bind, ret in Hw. rewrite Hb in Hw.
  set (outVs := zip_with Build_reflectValue (Outs (ftypeOf ctor)) outs) in *.
  pose proof (AddModule_keeps_resolver (specialOuts outVs) c1) as [Hd Ha].
  destruct (AddModule (specialOuts outVs) c1) as [c3 [[]|p]]; [|discriminate].
  injection Hw as <- <-. simpl in Hd, Ha.
  rewrite wrapped_type. unfold NumOut, nonCleanupOuts, outVs. simpl.
  split; [|split; [|split; assumption]].
  - rewrite length_map.
    apply (filter_zip_length (fun t => negb (isCleanup t))). exact Hlen.
  - apply (filter_zip_aligned (fun t => negb (isCleanup t))).
Qed.



Lemma rangeArgs_AddModule (args : list iface) : forall c,
  rangeArgs args c = AddModule args c.
Proof.
  induction args as [|arg rest IH]; intros c; simpl; [reflexivity|].
  unfold bind. destruct (isErrorValue arg) as [e|]; [reflexivity|].
  unfold ret. apply IH.
Qed.

Lemma targetTypesOf_spec (outs : list rtype) : forall acc,
  targetTypesOf outs acc =
  acc ++ List.filter (fun t => negb (isErr t) && negb (isCleanup t)) outs.
Proof.
  induction outs as [|t rest IH]; intros acc; simpl.
  - now rewrite app_nil_r.
  - destruct (isErr t); simpl; [apply IH|].
    destruct (isCleanup t); simpl; [apply IH|].
    rewrite IH, <- app_assoc. reflexivity.
Qed.

(** X7. [AddModuleFunc] registers the constructor with [provide] and then
    asks the resolver to invoke a function that takes the outputs of the
    constructor that are neither errors nor cleanup callbacks, in order, and
    returns nothing; invoked, that function adds its arguments as modules
    exactly as one call of [AddModule] on all of them would.  An error of
    the resolver becomes a panic with that very error. *)
Theorem AddModuleFunc_adds_the_outputs `{DiContainer D} ctor :
  Ins (ftypeOf (moduleAdder ctor)) =
    List.filter (fun t => negb (isErr t) && negb (isCleanup t)) (Outs (ftypeOf ctor)) /\
  Outs (ftypeOf (moduleAdder ctor)) = [] /\
  (forall args c,
      fbody (moduleAdder ctor) args c =
      match AddModule args c with
      | (c', Ret _) => (c', Ret [])
      | (c', Panic p) => (c', Panic p)
      end) /\
  (forall c,
      AddModuleFunc (Some ctor) c =
      match provide (Some ctor) c with
      | (c1, Ret _) =>
          match di_Invoke (moduleAdder ctor) c1 with
          | (c2, Some err) => (c2, Panic (PError err))
          | (c2, None) => (c2, Ret tt)
          end
      | (c1, Panic p) => (c1, Panic p)
      end).
Proof.
  split; [|split; [|split]].
  - unfold moduleAdder; simpl. apply (targetTypesOf_spec _ []).
  - reflexivity.
  - intros args c. unfold moduleAdder; simpl. unfold bind.
    rewrite rangeArgs_AddModule.
    destruct (AddModule args c) as [c' [[]|p]]; reflexivity.
  - intros c. reflexivity.
Qed.

End ContainerMore.

(** ** The message of the panic of [Invoke] *)

Section InvokeMessage.
Import Go Core.
Local Open Scope string_scope.

Lemma afterPrefix_app (p s : string) : afterPrefix (p ++ s) p = Some s.
Proof.
  induction p as [|a p IH]; simpl; [now destruct s|].
  now rewrite Ascii.eqb_refl.
Qed.

Lemma afterPrefix_HasPrefix (p : string) : forall s,
  HasPrefix s p = false -> afterPrefix s p = None.
Proof.
  induction p as [|a p IH]; intros [|b s]; simpl; try discriminate; try reflexivity.
  destruct (Ascii.eqb a b); [apply IH | reflexivity].
Qed.

Lemma HasPrefix_app_l (p : string) : forall u v,
  HasPrefix (u ++ v) p = true ->
  String.length p <= String.length u ->
  HasPrefix u p = true.
Proof.
  induction p as [|a p IH]; intros [|b u] v; simpl; try reflexivity; try lia.
  destruct (Ascii.eqb a b); [|discriminate].
  intros Hp Hlen. apply (IH u v Hp). lia.
Qed.

Lemma Contains_cons (c : ascii) (s p : string) :
  Contains (String c s) p = false ->
  HasPrefix (String c s) p = false /\ Contains s p = false.
Proof.
  change (Contains (String c s) p) with (HasPrefix (String c s) p || Contains s p).
  intros H. now apply orb_false_iff in H.
Qed.

Lemma matchAt_None_of_HasPrefix (s : string) :
  HasPrefix s reLiteral = false -> matchAt s = None.
Proof.
  intros H. unfold matchAt. now rewrite (afterPrefix_HasPrefix _ _ H).
Qed.

Lemma dropMatches_unmatched (c : ascii) (s : string) :
  matchAt (String c s) = None ->
  dropMatches 0 (String c s) = String c (dropMatches 0 s).
Proof.
  intros H. change (dropMatches 0 (String c s)) with
    (match matchAt (String c s) with
     | Some (S n) => dropMatches n s
     | _ => String c (dropMatches 0 s)
     end).
  now rewrite H.
Qed.

Lemma dropMatches_without_literal (s : string) :
  Contains s reLiteral = false -> dropMatches 0 s = s.
Proof.
  induction s as [|c s IH]; intros H; [reflexivity|].
  apply Contains_cons in H as [Hp Hc].
  rewrite dropMatches_unmatched by now apply matchAt_None_of_HasPrefix.
  now rewrite IH.
Qed.

(** X8. When the message of the resolver's error nowhere contains the text
    [ missing dependencies for function "reflect".makeFuncStub (], [Invoke]
    panics with an error that carries exactly that message. *)
Theorem Invoke_keeps_message_without_stub_frame {D} `{DiContainer D}
    (target : funcValue D) (c c' : C D) (err : error) :
  di_Invoke target c = (c', Some err) ->
  Contains (Error err) reLiteral = false ->
  Invoke target c = (c', Panic (PError (plainError (Error err)))).
Proof.
  intros Hi Hc. unfold Invoke. rewrite Hi.
  unfold ReplaceAllString_empty, errorsNew. now rewrite dropMatches_without_literal.
Qed.

Lemma dropMatches_skip (a : string) : forall b,
  dropMatches (String.length a) (a ++ b) = dropMatches 0 b.
Proof.
  induction a as [|x a IH]; intros b; simpl; [now destruct b|]. apply IH.
Qed.

Lemma HasPrefix_close_inside (c : ascii) (l post : string) :
  HasPrefix (String c l) "):" = false ->
  HasPrefix (String c (l ++ "):" ++ post)) "):" = false.
Proof.
  intros Hp.
  change (HasPrefix (String c l) "):")
    with (if Ascii.eqb ")" c then HasPrefix l ":" else false) in Hp.
  change (HasPrefix (String c (l ++ "):" ++ post)) "):")
    with (if Ascii.eqb ")" c then HasPrefix (l ++ "):" ++ post) ":" else false).
  destruct (Ascii.eqb ")" c); [|reflexivity].
  destruct l as [|c2 l]; [reflexivity|].
  change (HasPrefix (String c2 l) ":")
    with (if Ascii.eqb ":" c2 then HasPrefix l "" else false) in Hp.
  change (HasPrefix (String c2 l ++ "):" ++ post) ":")
    with (if Ascii.eqb ":" c2 then HasPrefix (l ++ "):" ++ post) "" else false).
  destruct (Ascii.eqb ":" c2); [|reflexivity].
  now destruct l.
Qed.

Lemma lazyUntilClose_first (l : string) : forall post,
  noNewline l = true ->
  Contains l "):" = false ->
  lazyUntilClose (l ++ "):" ++ post) = Some (String.length l + 2).
Proof.
  induction l as [|c l IH]; intros post Hn Hc.
  - now destruct post.
  - apply Contains_cons in Hc as [Hp Hc].
    simpl in Hn. apply andb_true_iff in Hn as [Hnc Hn].
    apply negb_true_iff in Hnc.
    change (lazyUntilClose (String c l ++ "):" ++ post)) with
      (if HasPrefix (String c (l ++ "):" ++ post)) "):" then Some 2
       else if isNewline c then None else S <$> lazyUntilClose (l ++ "):" ++ post)).
    rewrite (HasPrefix_close_inside _ _ _ Hp), Hnc, (IH post Hn Hc). reflexivity.
Qed.

Lemma literal_init : reLiteral = reLiteralInit ++ "(".
Proof. reflexivity. Qed.

Lemma append_assoc (a b c : string) : (a ++ b) ++ c = a ++ b ++ c.
Proof.
  induction a as [|x a IH]; [reflexivity|].
  change (String x ((a ++ b) ++ c) = String x (a ++ b ++ c)). now rewrite IH.
Qed.

Lemma length_append (a b : string) :
  String.length (a ++ b) = String.length a + String.length b.
Proof.
  induction a as [|x a IH]; [reflexivity|].
  change (S (String.length (a ++ b)) = S (String.length a) + String.length b).
  now rewrite IH.
Qed.

Lemma HasPrefix_not_inside (c : ascii) (pre rest : string) :
  HasPrefix (String c pre ++ reLiteralInit) reLiteral = false ->
  HasPrefix (String c pre ++ reLiteral ++ rest) reLiteral = false.
Proof.
  intros Hin. destruct (HasPrefix (String c pre ++ reLiteral ++ rest) reLiteral) eqn:Hp;
    [|reflexivity].
  assert (Heq : String c pre ++ reLiteral ++ rest =
                (String c pre ++ reLiteralInit) ++ ("(" ++ rest)).
  { rewrite literal_init at 1. now rewrite !append_assoc. }
  rewrite Heq in Hp. rewrite <- Hin. symmetry.
  apply (HasPrefix_app_l _ _ _ Hp).
  rewrite literal_init, !length_append. simpl. lia.
Qed.

Lemma dropMatches_matched (a b : string) :
  a <> "" ->
  matchAt (a ++ b) = Some (String.length a) ->
  dropMatches 0 (a ++ b) = dropMatches 0 b.
Proof.
  destruct a as [|x a]; [contradiction|]. intros _ Hm.
  change (String x a ++ b) with (String x (a ++ b)) in *.
  change (dropMatches 0 (String x (a ++ b))) with
    (match matchAt (String x (a ++ b)) with
     | Some (S n) => dropMatches n (a ++ b)
     | _ => String x (dropMatches 0 (a ++ b))
     end).
  rewrite Hm. simpl String.length. apply dropMatches_skip.
Qed.

Lemma dropMatches_frame (loc post : string) :
  loc <> "" ->
  noNewline loc = true ->
  Contains loc "):" = false ->
  dropMatches 0 (reLiteral ++ loc ++ "):" ++ post) = dropMatches 0 post.
Proof.
  intros Hne Hn Hc. destruct loc as [|c loc]; [contradiction|].
  apply Contains_cons in Hc as [_ Hc].
  simpl in Hn. apply andb_true_iff in Hn as [Hnc Hn]. apply negb_true_iff in Hnc.
  assert (Hm : matchAt (reLiteral ++ String c loc ++ "):" ++ post) =
               Some (String.length reLiteral + S (String.length loc + 2))).
  { unfold matchAt. rewrite afterPrefix_app.
    change (String c loc ++ "):" ++ post) with (String c (loc ++ "):" ++ post)).
    cbv beta iota. now rewrite Hnc, lazyUntilClose_first. }
  assert (Ha : reLiteral ++ String c loc ++ "):" ++ post =
               (reLiteral ++ String c loc ++ "):") ++ post)
    by now rewrite !append_assoc.
  rewrite Ha in Hm |- *.
  apply (dropMatches_matched (reLiteral ++ String c loc ++ "):") post).
  - intros Hempty. apply (f_equal String.length) in Hempty.
    rewrite length_append in Hempty.
    change (String.length reLiteral) with (S (String.length reLiteralInit)) in Hempty.
    discriminate Hempty.
  - rewrite Hm. f_equal. rewrite !length_append.
    change (String.length (String c loc)) with (S (String.length loc)).
    change (String.length "):") with 2. lia.
Qed.

Lemma dropMatches_prefix (pre : string) : forall rest,
  Contains (pre ++ reLiteralInit) reLiteral = false ->
  dropMatches 0 (pre ++ reLiteral ++ rest) = pre ++ dropMatches 0 (reLiteral ++ rest).
Proof.
  induction pre as [|c pre IH]; intros rest Hc.
  { change ("" ++ reLiteral ++ rest) with (reLiteral ++ rest).
    now change ("" ++ dropMatches 0 (reLiteral ++ rest))
      with (dropMatches 0 (reLiteral ++ rest)). }
  change (String c pre ++ reLiteralInit) with (String c (pre ++ reLiteralInit)) in Hc.
  apply Contains_cons in Hc as [Hp Hc].
  change (String c pre ++ reLiteral ++ rest) with (String c (pre ++ reLiteral ++ rest)).
  rewrite dropMatches_unmatched.
  - now rewrite IH.
  - apply matchAt_None_of_HasPrefix. now apply HasPrefix_not_inside.
Qed.

(** X9. When the message of the resolver's error holds a frame
    [ missing dependencies for function "reflect".makeFuncStub (loc):], the
    location [loc] not empty and without newline or [):], and the literal
    part of the frame begins nowhere before it, the panic of [Invoke]
    carries the message with the frame cut out: what precedes the frame
    unchanged, followed by what follows it with the further frames of that
    kind removed. *)
Theorem Invoke_cuts_stub_frame {D} `{DiContainer D}
    (target : funcValue D) (c c' : C D) (err : error) (pre loc post : string) :
  di_Invoke target c = (c', Some err) ->
  Error err = pre ++ reLiteral ++ loc ++ "):" ++ post ->
  loc <> "" ->
  noNewline loc = true ->
  Contains loc "):" = false ->
  Contains (pre ++ reLiteralInit) reLiteral = false ->
  Invoke target c =
    (c', Panic (PError (plainError (pre ++ ReplaceAllString_empty post)))).
Proof.
  intros Hi He Hne Hn Hc Hpre. unfold Invoke. rewrite Hi, He.
  unfold ReplaceAllString_empty, errorsNew.
  now rewrite dropMatches_prefix, dropMatches_frame.
Qed.

End InvokeMessage.

(** ** The options of [New] *)

Section OptionFacts.
Import Go Bootstrap.
Context {TConf TAppName TEnv TLogger TLevelLogger TDi TDispatcher : Type}.
Context (WithLevel : TLogger -> TLevelLogger).
Implicit Types (v : @coreValues TConf TAppName TEnv TLogger TDi TDispatcher).
Implicit Types (x : @optionCall TConf TAppName TEnv TLogger TDi TDispatcher).
Implicit Types (calls rest : list (@optionCall TConf TAppName TEnv TLogger TDi TDispatcher)).

Lemma lastSet_cons {A} (pick : _ -> option A) x rest (d : A) :
  lastSet pick (x :: rest) d = lastSet pick rest (default d (pick x)).
Proof.
  unfold lastSet, omap. simpl. destruct (pick x) as [a|]; simpl; [|reflexivity].
  rewrite last_cons. now destruct (last _).
Qed.

Lemma applyOptions_app (opts1 opts2 : list (_ -> _)) v :
  applyOptions (opts1 ++ opts2) v = applyOptions opts2 (applyOptions opts1 v).
Proof. apply fold_left_app. Qed.

(** X10. However the calls that build options are ordered and mixed, the
    options of one kind do not disturb those of another.  After all options
    are applied the configuration stack is the one before them followed by
    one layer for each [WithConfigStack], [WithInline] and [WithYamlFile],
    in call order; the watcher is the one given last by [WithConfigWatcher]
    or [WithYamlFile]; each provider is the one given last by its setter,
    or else the default.  So [New] builds the configuration with the
    provider set last, from the whole stack and the last watcher, also from
    layers and watchers that come after that setter in the list. *)
Theorem options_compose_by_kind calls v :
  applyOptions (flat_map optionsOf calls) v =
    {| configStack := configStack v ++ flat_map layersOf calls;
       configWatcher := lastSet watcherSet calls (configWatcher v);
       configProvider := lastSet configProviderSet calls (configProvider v);
       eventDispatcherProvider :=
         lastSet eventDispatcherProviderSet calls (eventDispatcherProvider v);
       diProvider := lastSet diProviderSet calls (diProvider v);
       appNameProvider := lastSet appNameProviderSet calls (appNameProvider v);
       envProvider := lastSet envProviderSet calls (envProvider v);
       loggerProvider := lastSet loggerProviderSet calls (loggerProvider v) |} /\
  ConfigAccessor (New WithLevel v (flat_map optionsOf calls)) =
    lastSet configProviderSet calls (configProvider v)
      (configStack v ++ flat_map layersOf calls)
      (lastSet watcherSet calls (configWatcher v)).
Proof.
  assert (Happly : forall calls v,
    applyOptions (flat_map optionsOf calls) v =
    {| configStack := configStack v ++ flat_map layersOf calls;
       configWatcher := lastSet watcherSet calls (configWatcher v);
       configProvider := lastSet configProviderSet calls (configProvider v);
       eventDispatcherProvider :=
         lastSet eventDispatcherProviderSet calls (eventDispatcherProvider v);
       diProvider := lastSet diProviderSet calls (diProvider v);
       appNameProvider := lastSet appNameProviderSet calls (appNameProvider v);
       envProvider := lastSet envProviderSet calls (envProvider v);
       loggerProvider := lastSet loggerProviderSet calls (loggerProvider v) |}).
  { clear calls v. induction calls as [|x rest IH]; intros v.
    - simpl. rewrite app_nil_r. now destruct v.
    - change (flat_map optionsOf (x :: rest))
        with (optionsOf x ++ flat_map optionsOf rest).
      rewrite applyOptions_app, IH, !lastSet_cons.
      change (flat_map layersOf (x :: rest)) with (layersOf x ++ flat_map layersOf rest).
      rewrite app_assoc.
      destruct x; simpl; rewrite ?app_nil_r; reflexivity. }
  split; [apply Happly|].
  unfold New. cbv zeta. rewrite Happly. reflexivity.
Qed.

End OptionFacts.

(** ** The providers of [otkafka], further *)

Section OtkafkaMore.
Import Go Di Otkafka.
Context `{KafkaDecls}.

(** X11. Whatever interceptors are supplied, a builder whose configuration
    cannot be unmarshalled calls none of them and does not panic: it
    returns no connection and an error that names the kind and the name of
    the configuration, carries the message of the cause and wraps the
    cause. *)
Theorem builders_wrap_config_error (p : factoryIn) name (w : World) :
  (forall cause,
      Unmarshal_ReaderConfig (Conf w) (readerPath name) = inr cause ->
      exists err,
        readerBuilder p name w = (w, Ret (inr err)) /\
        Unwrap err = Some cause /\
        Error err = ("kafka reader configuration " ++ name ++ " not valid: " ++ Error cause)%string) /\
  (forall cause,
      Unmarshal_WriterConfig (Conf w) (writerPath name) = inr cause ->
      exists err,
        writerBuilder p name w = (w, Ret (inr err)) /\
        Unwrap err = Some cause /\
        Error err = ("kafka writer configuration " ++ name ++ " not valid: " ++ Error cause)%string).
Proof.
  split; intros cause Hu; eexists.
  - unfold readerBuilder. rewrite Hu. repeat split.
  - unfold writerBuilder. rewrite Hu. repeat split.
Qed.

Lemma makeDefault_Some {T} (f f' : Factory World T) (w w' : World) conn :
  makeDefault f w = (f', w', Ret (Some conn)) ->
  Make f "default" w = (f', w', Ret (inl conn)).
Proof.
  unfold makeDefault.
  destruct (Make f "default" w) as [[f1 w1] [[c|e]|pv]]; intros [=]; subst; reflexivity.
Qed.

Lemma makeDefault_Conf {T} (f f' : Factory World T) (w w' : World) r :
  (forall name w0, (builder f name w0).1 = w0) ->
  makeDefault f w = (f', w', r) -> Conf w' = Conf w.
Proof.
  intros Hb. unfold makeDefault, Make.
  destruct (cache f !! "default") as [q|].
  - intros [=]; subst; reflexivity.
  - specialize (Hb "default" w).
    destruct (builder f "default" w) as [w1 [[q|e]|pv]]; simpl in Hb; subst w1;
      intros [=]; subst; reflexivity.
Qed.

Lemma readerBuilder_world (p : factoryIn) name (w : World) :
  (readerBuilder p name w).1 = w.
Proof.
  unfold readerBuilder, newReaderPair.
  destruct (Unmarshal_ReaderConfig (Conf w) (readerPath name)); [|reflexivity].
  destruct (WriterInterceptor p); [destruct (ReaderInterceptor p); [|reflexivity]|];
    now destruct (kafka_NewReader _).
Qed.

Lemma writerBuilder_world (p : factoryIn) name (w : World) :
  (writerBuilder p name w).1 = w.
Proof.
  unfold writerBuilder.
  now destruct (Unmarshal_WriterConfig (Conf w) (writerPath name)).
Qed.

Lemma provideKafkaFactory_returned (p : factoryIn) (w w' : World) out wc rc err :
  provideKafkaFactory p w = (w', Ret (out, wc, rc, err)) ->
  exists rf w1,
    makeDefault (NewFactory (readerBuilder p)) w = (rf, w1, Ret (Reader out)) /\
    makeDefault (NewFactory (writerBuilder p)) w1 = (WriterFactory out, w', Ret (Writer out)) /\
    rf = ReaderFactory out /\
    ReaderMaker out = ReaderFactory out /\ WriterMaker out = WriterFactory out /\
    ReaderCollector out =
      (fun stats => newReaderCollector stats (metricsInterval w')) <$> ReaderStats_ p /\
    WriterCollector out =
      (fun stats => newWriterCollector stats (metricsInterval w')) <$> WriterStats_ p /\
    wc = WriterFactory_Close /\ rc = ReaderFactory_Close /\ err = None.
Proof.
  unfold provideKafkaFactory, provideReaderFactory, provideWriterFactory.
  cbv beta iota zeta.
  destruct (makeDefault (NewFactory (readerBuilder p)) w) as [[rf w1] [dr|pv]] eqn:HmR;
    [|discriminate].
  destruct (makeDefault (NewFactory (writerBuilder p)) w1) as [[wf w2] [dw|pv]] eqn:HmW;
    [|discriminate].
  destruct (ReaderStats_ p) as [rs|], (WriterStats_ p) as [ws|]; simpl;
    intros [=]; subst; exists rf, w1; repeat split; assumption.
Qed.

(** X13. Whenever [provideKafkaFactory] returns, its error is nil, the
    first cleanup closes the writer factory and the second the reader
    factory, the makers are the factories, and the configuration is as it
    was.  A collector is made for exactly the statistics supplied, both
    with the interval read at [kafkaMetrics.interval], zero when it cannot
    be read. *)
Theorem provideKafkaFactory_result (p : factoryIn) (w w' : World) out wc rc err :
  provideKafkaFactory p w = (w', Ret (out, wc, rc, err)) ->
  err = None /\ wc = WriterFactory_Close /\ rc = ReaderFactory_Close /\
  ReaderMaker out = ReaderFactory out /\ WriterMaker out = WriterFactory out /\
  Conf w' = Conf w /\
  ReaderCollector out =
    (fun stats => newReaderCollector stats (metricsInterval w)) <$> ReaderStats_ p /\
  WriterCollector out =
    (fun stats => newWriterCollector stats (metricsInterval w)) <$> WriterStats_ p /\
  (forall cause, Unmarshal_Duration (Conf w) "kafkaMetrics.interval" = inr cause ->
                 metricsInterval w = 0).
Proof.
  intros Hp.
  destruct (provideKafkaFactory_returned _ _ _ _ _ _ _ Hp)
    as (rf & w1 & HmR & HmW & _ & HRM & HWM & HRC & HWC & -> & -> & ->).
  assert (Hc1 : Conf w1 = Conf w).
  { eapply makeDefault_Conf; [|exact HmR]. intros; apply readerBuilder_world. }
  assert (Hc2 : Conf w' = Conf w1).
  { eapply makeDefault_Conf; [|exact HmW]. intros; apply writerBuilder_world. }
  assert (Hi : metricsInterval w' = metricsInterval w).
  { unfold metricsInterval. now rewrite Hc2, Hc1. }
  rewrite Hi in HRC, HWC.
  repeat split; try assumption; try congruence.
  intros cause Hu. unfold metricsInterval. now rewrite Hu.
Qed.

(** X14. The reader and the writer that [provideKafkaFactory] returns are
    the instances its factories hold for [default]: a later
    [Make("default")] on the returned factory gives that very reader, or
    writer, and leaves the factory as it is, whatever the configuration has
    become. *)
Theorem provideKafkaFactory_shares_defaults (p : factoryIn) (w w' : World) out wc rc err :
  provideKafkaFactory p w = (w', Ret (out, wc, rc, err)) ->
  (forall reader w'', Reader out = Some reader ->
     Make (ReaderFactory out) "default" w'' = (ReaderFactory out, w'', Ret (inl reader))) /\
  (forall writer w'', Writer out = Some writer ->
     Make (WriterFactory out) "default" w'' = (WriterFactory out, w'', Ret (inl writer))).
Proof.
  intros Hp.
  destruct (provideKafkaFactory_returned _ _ _ _ _ _ _ Hp)
    as (rf & w1 & HmR & HmW & -> & _).
  split.
  - intros reader w'' Hr. rewrite Hr in HmR. apply makeDefault_Some in HmR.
    destruct (Make_success_cached _ _ _ _ _ _ HmR) as (q & Hq & <-).
    now apply Make_cached.
  - intros writer w'' Hr. rewrite Hr in HmW. apply makeDefault_Some in HmW.
    destruct (Make_success_cached _ _ _ _ _ _ HmW) as (q & Hq & <-).
    now apply Make_cached.
Qed.


End OtkafkaMore.

Section OtkafkaFailures.
Import Go Di Otkafka.
Context `{KafkaDecls}.



End OtkafkaFailures.

(** ** Instances of the further properties *)

Section MoreScenarios.
Import Go Events Core Di Otkafka Scenarios.
#[local] Existing Instance brokersAndTopic.

Lemma Subscribe_leaves_other_topics_witness :
  Listen (counting 3 "ConfigReload") <> Orchestrator.ModuleStart /\
  Dispatch (Subscribe countingDispatcher (counting 3 "ConfigReload"))
           Orchestrator.ModuleStart "srvhttp" 0 =
  Dispatch countingDispatcher Orchestrator.ModuleStart "srvhttp" 0.
Proof.
  assert (Hne : Listen (counting 3 "ConfigReload") <> Orchestrator.ModuleStart)
    by discriminate.
  split; [exact Hne|].
  exact (Subscribe_leaves_other_topics countingDispatcher _ _ "srvhttp" 0 Hne).
Defined.

Lemma wrapped_is_transparent_without_special_outputs_witness :
  existsb isSpecial (Outs (ftypeOf useM1)) = false /\
  IsVariadic (ftypeOf useM1) = false /\
  length [Some vM1] = NumIn (ftypeOf useM1) /\
  (forall c1 outs, fbody useM1 [Some vM1] emptyC = (c1, Ret outs) ->
                   length outs = NumOut (ftypeOf useM1)) /\
  fbody (wrapped useM1) [Some vM1] emptyC = (emptyC, Ret [Some vInt]).
Proof.
  assert (Hlen : forall c1 outs, fbody useM1 [Some vM1] emptyC = (c1, Ret outs) ->
                                 length outs = NumOut (ftypeOf useM1)).
  { intros c1 outs [= <- <-]. reflexivity. }
  split; [reflexivity|]. split; [reflexivity|]. split; [reflexivity|].
  split; [exact Hlen|].
  rewrite (wrapped_is_transparent_without_special_outputs useM1 [Some vM1] emptyC
             eq_refl eq_refl eq_refl Hlen).
  reflexivity.
Defined.

Lemma wrapped_results_fit_wrapped_type_witness :
  IsVariadic (ftypeOf mockConstructor) = false /\
  fbody mockConstructor [Some vB] emptyC = (emptyC, Ret [Some vA; Some vCleanup; None]) /\
  length [Some vA; Some vCleanup; None] = NumOut (ftypeOf mockConstructor) /\
  fbody (wrapped mockConstructor) [Some vB] emptyC =
    ({| Container := [Some vCleanup]; di := [] |}, Ret [Some vA; None]) /\
  length [Some vA; None] = NumOut (ftypeOf (wrapped mockConstructor)).
Proof.
  split; [reflexivity|]. split; [reflexivity|]. split; [reflexivity|].
  split; [reflexivity|].
  exact (proj1 (wrapped_results_fit_wrapped_type mockConstructor [Some vB] emptyC _ _ _ _
                  eq_refl eq_refl eq_refl eq_refl)).
Defined.

(** For a variadic constructor whose element type is [interface{}], [Call]
    accepts the slice as one variadic argument: the constructor runs on a
    slice that holds the slice, not on the arguments of the wrapped
    constructor. *)
Lemma wrapped_variadic_nests_slice :
  IsVariadic (ftypeOf echoAll) = true /\
  fbody echoAll [Some noAnys] emptyC = (emptyC, Ret [Some noAnys; Some vCleanup]) /\
  fbody (wrapped echoAll) [Some noAnys] emptyC =
    ({| Container := [Some vCleanup]; di := [] |}, Ret [Some nestedAnys]).
Proof.
  split; [reflexivity|]. split; reflexivity.
Qed.


Lemma Invoke_keeps_message_without_stub_frame_witness :
  di_Invoke (DiContainer := recordingDi (Some boom)) failingTarget emptyC =
    (emptyC, Some boom) /\
  Contains (Error boom) reLiteral = false /\
  Invoke (H := recordingDi (Some boom)) failingTarget emptyC =
    (emptyC, Panic (PError (plainError "boom: cause"))).
Proof.
  split; [reflexivity|]. split; [vm_compute; reflexivity|].
  apply (Invoke_keeps_message_without_stub_frame (H := recordingDi (Some boom))
           failingTarget emptyC emptyC boom eq_refl).
  vm_compute; reflexivity.
Defined.

Lemma Invoke_cuts_stub_frame_witness :
  let pre := ("could not build arguments for function " ++ dq ++ "core" ++ dq
              ++ ".TestNew_missingDependencyErrorMessage.func2 (c_test.go:222): failed to build core.a:")%string in
  let loc := "/usr/local/go/src/reflect/asm_amd64.s:30"%string in
  let post := " missing type: core.b"%string in
  (Error (plainError missingDirect) = pre ++ reLiteral ++ loc ++ "):" ++ post)%string /\
  loc <> ""%string /\
  noNewline loc = true /\
  Contains loc "):" = false /\
  Contains (pre ++ reLiteralInit)%string reLiteral = false /\
  Invoke (H := recordingDi (Some (plainError missingDirect))) plainConstructor emptyC =
    (emptyC, Panic (PError (plainError (pre ++ ReplaceAllString_empty post)%string))).
Proof.
  intros pre loc post.
  assert (He : (Error (plainError missingDirect) = pre ++ reLiteral ++ loc ++ "):" ++ post)%string)
    by (vm_compute; reflexivity).
  assert (Hne : loc <> ""%string) by discriminate.
  assert (Hn : noNewline loc = true) by (vm_compute; reflexivity).
  assert (Hc : Contains loc "):" = false) by (vm_compute; reflexivity).
  assert (Hp : Contains (pre ++ reLiteralInit)%string reLiteral = false)
    by (vm_compute; reflexivity).
  split; [exact He|]. split; [exact Hne|]. split; [exact Hn|].
  split; [exact Hc|]. split; [exact Hp|].
  exact (Invoke_cuts_stub_frame (H := recordingDi (Some (plainError missingDirect)))
           plainConstructor emptyC emptyC (plainError missingDirect) pre loc post
           eq_refl He Hne Hn Hc Hp).
Defined.

Lemma builders_wrap_config_error_witness :
  Unmarshal_ReaderConfig (Conf (worldOf noConfig)) (readerPath "default") =
    inr (absent "kafka.reader.default") /\
  Unmarshal_WriterConfig (Conf (worldOf noConfig)) (writerPath "default") =
    inr (absent "kafka.writer.default") /\
  (exists err,
      readerBuilder writerInterceptorOnly "default" (worldOf noConfig) =
        (worldOf noConfig, Ret (inr err)) /\
      Unwrap err = Some (absent "kafka.reader.default")) /\
  (exists err,
      writerBuilder writerInterceptorOnly "default" (worldOf noConfig) =
        (worldOf noConfig, Ret (inr err)) /\
      Unwrap err = Some (absent "kafka.writer.default")).
Proof.
  split; [reflexivity|]. split; [reflexivity|].
  destruct (builders_wrap_config_error writerInterceptorOnly "default" (worldOf noConfig))
    as [Hr Hw].
  destruct (Hr _ eq_refl) as (er & Hbr & Hur & _).
  destruct (Hw _ eq_refl) as (ew & Hbw & Huw & _).
  split; [exists er | exists ew]; split; assumption.
Defined.

Lemma provideKafkaFactory_result_witness :
  exists w' out wc rc err,
    provideKafkaFactory bareIn (worldOf readerConfigured) = (w', Ret (out, wc, rc, err)) /\
    err = None /\ wc = WriterFactory_Close /\ rc = ReaderFactory_Close /\
    ReaderCollector out = None /\ WriterCollector out = None.
Proof.
  eexists _, _, _, _, _. split; [reflexivity|].
  destruct (provideKafkaFactory_result bareIn (worldOf readerConfigured) _ _ _ _ _ eq_refl)
    as (He & Hwc & Hrc & _ & _ & _ & HRC & HWC & _).
  repeat split; assumption.
Defined.

Lemma provideKafkaFactory_shares_defaults_witness :
  exists w' out wc rc err,
    provideKafkaFactory bareIn (worldOf readerConfigured) = (w', Ret (out, wc, rc, err)) /\
    Reader out = Some localBrokers /\
    Make (ReaderFactory out) "default" (worldOf noConfig) =
      (ReaderFactory out, worldOf noConfig, Ret (inl localBrokers)).
Proof.
  eexists _, _, _, _, _. split; [reflexivity|]. split; [reflexivity|].
  destruct (provideKafkaFactory_shares_defaults bareIn (worldOf readerConfigured)
              _ _ _ _ _ eq_refl) as [Hr _].
  exact (Hr localBrokers (worldOf noConfig) eq_refl).
Defined.


(** On the configuration of the default reader that [provideConfig] exports,
    which names no topic, [kafka.NewReader] panics and so does
    [provideKafkaFactory]. *)
Lemma provideKafkaFactory_panics_without_topic :
  provideKafkaFactory bareIn (worldOf defaultsAsExported) =
    (worldOf defaultsAsExported,
     Panic (PError (errorsNew "cannot create a new kafka reader with an empty topic"))).
Proof. reflexivity. Qed.


End MoreScenarios.
